(** * blueman: the StatusIcon applet plugin

    A shallow embedding of [blueman/plugins/applet/StatusIcon.py] and the
    properties of its visibility decision, icon naming, implementation
    ordering and bus forwarding.

    Conventions of the embedding:
    - a Python [str] is a [string]; a Python [int] is a [Z];
      [Optional[T]] is [option T], [None] being Python's [None];
    - the collaborators the plugin only queries (the Bluetooth manager, the
      plugin host, the settings store, gettext, GLib's source ids) are read
      from an environment [Env] that may differ at every call;
    - what the plugin does to its collaborators (bus signals, GLib calls,
      process launches) is written to a trace of [Event]s, in program order;
      the trace also marks the entry of the three setters, so that "the value
      last set" can be read off a run. *)

From Stdlib Require Import List String Ascii ZArith Bool Lia Arith.
From Stdlib Require Import Sorting.Permutation Sorting.Sorted.
Import ListNotations.
Local Open Scope string_scope.
Local Open Scope list_scope.

(** ** Python helpers *)

Module Py.

(** Truth value of an [Optional[int]]: [None] and [0] are false. *)
Definition truthy_opt_int (o : option Z) : bool :=
  match o with
  | None => false
  | Some n => negb (n =? 0)%Z
  end.

(** Truth value of a list: non-empty. *)
Definition truthy_list {A} (l : list A) : bool :=
  match l with
  | [] => false
  | _ :: _ => true
  end.

(** Truth value of an [Optional[List]]. *)
Definition truthy_opt_list {A} (o : option (list A)) : bool :=
  match o with
  | None => false
  | Some l => truthy_list l
  end.

(** [any(iterable)] over booleans. *)
Definition any (l : list bool) : bool := existsb (fun b => b) l.

(** [old in s] at the head of [s]: [s.startswith(old)]. *)
Definition startswith (s old : string) : bool := String.prefix old s.

(** [s.replace(old, new)] for a non-empty [old], scanning left to right and
    replacing non-overlapping occurrences.  [skip] counts the characters
    of a matched occurrence still to be dropped. *)
Fixpoint replace_from (skip : nat) (old new s : string) : string :=
  match s with
  | EmptyString => EmptyString
  | String c s' =>
      match skip with
      | S k => replace_from k old new s'
      | O =>
          if startswith s old
          then (new ++ replace_from (String.length old - 1) old new s')%string
          else String c (replace_from 0 old new s')
      end
  end.

(** For an empty [old], Python inserts [new] before every character and at
    the end. *)
Fixpoint intersperse (new s : string) : string :=
  match s with
  | EmptyString => new
  | String c s' => (new ++ String c (intersperse new s'))%string
  end.

Definition replace (s old new : string) : string :=
  match old with
  | EmptyString => intersperse new s
  | String _ _ => replace_from 0 old new s
  end.

(** [sorted(l, key=key, reverse=True)]: a stable sort into non-increasing
    key order.  [insert_desc x l] puts [x], which precedes every element of
    [l] in the input, before the first element whose key is not greater. *)
Section Sorted.
Context {A : Type} (key : A -> Z).

Fixpoint insert_desc (x : A) (l : list A) : list A :=
  match l with
  | [] => [x]
  | y :: l' =>
      if (key x <? key y)%Z then y :: insert_desc x l' else x :: y :: l'
  end.

Fixpoint sorted_reverse (l : list A) : list A :=
  match l with
  | [] => []
  | x :: l' => insert_desc x (sorted_reverse l')
  end.
End Sorted.

End Py.

(** ** Plugins of the applet

    The three protocol classes of the file.  A loaded plugin is described by
    what its callbacks return when the host queries them; [None] in a field
    says that the plugin is not an instance of that class. *)

Module StatusIconImplementationProvider.
Definition on_query_status_icon_implementation : string * Z :=
  ("GtkStatusIcon", 0%Z).
End StatusIconImplementationProvider.

Module StatusIconVisibilityHandler.
Definition on_query_force_status_icon_visibility : bool := false.
End StatusIconVisibilityHandler.

Module StatusIconProvider.
Definition on_status_icon_query_icon : option string := None.
End StatusIconProvider.

Record Plugin : Type := {
  on_query_status_icon_implementation : option (string * Z);
  on_query_force_status_icon_visibility : option bool;
  on_status_icon_query_icon : option (option string)
}.

(** [Plugins.get_loaded_plugins(cls)]: the loaded instances of [cls], in load
    order, each represented by its callback [cb]. *)
Fixpoint get_loaded_plugins {R} (cb : Plugin -> option R) (plugins : list Plugin)
  : list R :=
  match plugins with
  | [] => []
  | p :: rest =>
      match cb p with
      | Some r => r :: get_loaded_plugins cb rest
      | None => get_loaded_plugins cb rest
      end
  end.

(** ** Environment, events, object *)

Record Env : Type := {
  (** [parent.Manager.get_adapters()], as object paths *)
  get_adapters : list string;
  (** [parent.Plugins], in load order *)
  loaded_plugins : list Plugin;
  (** [general_config.get_boolean("symbolic-status-icons")] *)
  symbolic_status_icons : bool;
  (** [parent.manager_state] *)
  manager_state : bool;
  (** the message catalogue behind [_] *)
  gettext : string -> string;
  (** the source id [GLib.timeout_add] returns when called *)
  timeout_add_id : Z
}.

Inductive Signal : Type :=
| VisibilityChanged (visible : bool)
| ToolTipTitleChanged (title : string)
| ToolTipTextChanged (text : option string)
| IconNameChanged (name : string).

Inductive Callback : Type :=
| cb_on_visibility_timeout.

(** The setters of the object, with their arguments.  [Enter] events are
    bookkeeping of the trace: they record that a setter was entered and
    reach no collaborator. *)
Inductive Setter : Type :=
| call_set_visible (visible emit : bool)
| call_set_tooltip_title (title : string)
| call_set_tooltip_text (text : option string).

Inductive Event : Type :=
| Enter (call : Setter)
| Emit (signal : Signal)
| TimeoutAdd (interval : Z) (callback : Callback) (id : Z)
| SourceRemove (id : Z)
| Launch (cmd icon_name : string) (sn : bool).

Inductive Result (A : Type) : Type :=
| Returned (a : A)
| AssertionError.
Arguments Returned {A} a.
Arguments AssertionError {A}.

(** The instance attributes.  [_tooltip_text] is assigned from an expression
    over an [Optional[str]] and is modelled as nullable: that it never holds
    [None] is a property of the code, not of the type. *)
Record StatusIcon : Type := {
  visible : option bool;
  visibility_timeout : option Z;
  _implementations : option (list string);
  _tooltip_title : string;
  _tooltip_text : option string
}.

Definition with_visible (v : option bool) (self : StatusIcon) : StatusIcon :=
  {| visible := v;
     visibility_timeout := visibility_timeout self;
     _implementations := _implementations self;
     _tooltip_title := _tooltip_title self;
     _tooltip_text := _tooltip_text self |}.

Definition with_visibility_timeout (t : option Z) (self : StatusIcon) : StatusIcon :=
  {| visible := visible self;
     visibility_timeout := t;
     _implementations := _implementations self;
     _tooltip_title := _tooltip_title self;
     _tooltip_text := _tooltip_text self |}.

Definition with_implementations (i : option (list string)) (self : StatusIcon)
  : StatusIcon :=
  {| visible := visible self;
     visibility_timeout := visibility_timeout self;
     _implementations := i;
     _tooltip_title := _tooltip_title self;
     _tooltip_text := _tooltip_text self |}.

Definition with_tooltip_title (t : string) (self : StatusIcon) : StatusIcon :=
  {| visible := visible self;
     visibility_timeout := visibility_timeout self;
     _implementations := _implementations self;
     _tooltip_title := t;
     _tooltip_text := _tooltip_text self |}.

Definition with_tooltip_text (t : option string) (self : StatusIcon) : StatusIcon :=
  {| visible := visible self;
     visibility_timeout := visibility_timeout self;
     _implementations := _implementations self;
     _tooltip_title := _tooltip_title self;
     _tooltip_text := t |}.

(** ** The method monad: reads [Env], threads [self], appends to the trace *)

Definition M (A : Type) : Type := Env -> StatusIcon -> A * StatusIcon * list Event.

Definition ret {A} (a : A) : M A := fun _ self => (a, self, []).

Definition bind {A B} (m : M A) (k : A -> M B) : M B :=
  fun env self =>
    let '(a, self1, t1) := m env self in
    let '(b, self2, t2) := k a env self1 in
    (b, self2, t1 ++ t2).

Notation "x <- m ;; k" := (bind m (fun x => k))
  (at level 61, m at next level, right associativity).
Notation "m ;; k" := (bind m (fun _ => k))
  (at level 61, right associativity).

Definition ask {A} (f : Env -> A) : M A := fun env self => (f env, self, []).
Definition get {A} (f : StatusIcon -> A) : M A := fun _ self => (f self, self, []).
Definition modify (f : StatusIcon -> StatusIcon) : M unit :=
  fun _ self => (tt, f self, []).
Definition tell (e : Event) : M unit := fun _ self => (tt, self, [e]).

Definition result_of {A} (r : A * StatusIcon * list Event) : A := fst (fst r).
Definition self_of {A} (r : A * StatusIcon * list Event) : StatusIcon := snd (fst r).
Definition trace_of {A} (r : A * StatusIcon * list Event) : list Event := snd r.

(** [AppletPlugin._emit_dbus_signal] *)
Definition _emit_dbus_signal (s : Signal) : M unit := tell (Emit s).

(** [blueman.Functions.launch] *)
Definition launch (cmd icon_name : string) (sn : bool) : M unit :=
  tell (Launch cmd icon_name sn).

(** ** StatusIcon methods *)

Definition set_visible (v emit : bool) : M unit :=
  tell (Enter (call_set_visible v emit)) ;;
  modify (with_visible (Some v)) ;;
  if emit then _emit_dbus_signal (VisibilityChanged v) else ret tt.

(** The condition of the first branch of [query_visibility]. *)
Definition show_condition (env : Env) : bool :=
  Py.truthy_list (get_adapters env)
  || Py.any (get_loaded_plugins on_query_force_status_icon_visibility
               (loaded_plugins env)).

Definition query_visibility (delay_hiding emit : bool) : M unit :=
  show <- ask show_condition ;;
  if show then set_visible true emit
  else
    timeout <- get visibility_timeout ;;
    if negb (Py.truthy_opt_int timeout) then
      if delay_hiding then
        id <- ask timeout_add_id ;;
        tell (TimeoutAdd 2500 cb_on_visibility_timeout id) ;;
        modify (with_visibility_timeout (Some id))
      else set_visible false emit
    else ret tt.

Definition on_visibility_timeout : M (Result bool) :=
  timeout <- get visibility_timeout ;;
  match timeout with
  | None => ret AssertionError
  | Some id =>
      tell (SourceRemove id) ;;
      modify (with_visibility_timeout None) ;;
      query_visibility false true ;;
      ret (Returned false)
  end.

Definition set_tooltip_title (title : string) : M unit :=
  tell (Enter (call_set_tooltip_title title)) ;;
  modify (with_tooltip_title title) ;;
  _emit_dbus_signal (ToolTipTitleChanged title).

Definition set_tooltip_text (text : option string) : M unit :=
  tell (Enter (call_set_tooltip_text text)) ;;
  modify (with_tooltip_text
            (Some match text with None => "" | Some t => t end)) ;;
  stored <- get _tooltip_text ;;
  _emit_dbus_signal (ToolTipTextChanged stored).

Definition _get_status_icon_implementations (env : Env) : list string :=
  map fst
    (Py.sorted_reverse snd
       (get_loaded_plugins on_query_status_icon_implementation
          (loaded_plugins env)))
  ++ ["GtkStatusIcon"].

(** The loop of [_get_icon_name]: the running value of [name]. *)
Fixpoint icon_loop (name : string) (icons : list (option string)) : string :=
  match icons with
  | [] => name
  | icon :: rest =>
      match icon with
      | Some i => icon_loop i rest
      | None => icon_loop name rest
      end
  end.

Definition _get_icon_name (env : Env) : string :=
  let name := "blueman-tray" in
  let name :=
    icon_loop name
      (get_loaded_plugins on_status_icon_query_icon (loaded_plugins env)) in
  let name := Py.replace name "-symbolic" "" in
  let name :=
    if symbolic_status_icons env then (name ++ "-symbolic")%string else name in
  name.

Definition icon_should_change : M unit :=
  name <- ask _get_icon_name ;;
  _emit_dbus_signal (IconNameChanged name) ;;
  query_visibility false true.

Definition on_symbolic_config_change (key : string) : M unit :=
  icon_should_change.

Definition on_adapter_added (_path : string) : M unit :=
  query_visibility false true.

Definition on_adapter_removed (_path : string) : M unit :=
  query_visibility false true.

Definition on_manager_state_changed (state : bool) : M unit :=
  query_visibility false true ;;
  if state then launch "blueman-tray" "blueman" false else ret tt.

Definition list_string_eqb (a b : list string) : bool :=
  if list_eq_dec string_dec a b then true else false.

Definition _on_plugins_changed (_name : string) : M unit :=
  implementations <- ask _get_status_icon_implementations ;;
  current <- get _implementations ;;
  (if negb (Py.truthy_opt_list current)
      || negb match current with
              | Some l => list_string_eqb l implementations
              | None => false
              end
   then modify (with_implementations (Some implementations))
   else ret tt) ;;
  state <- ask manager_state ;;
  if state then launch "blueman-tray" "blueman" false else ret tt.

(** [on_load]: the attributes start from the class defaults, the tooltip
    slots are filled, and visibility is queried without emitting. *)
Definition class_attributes (title : string) : StatusIcon :=
  {| visible := None;
     visibility_timeout := None;
     _implementations := None;
     _tooltip_title := title;
     _tooltip_text := Some "" |}.

Definition on_load (env : Env) : StatusIcon * list Event :=
  let self := class_attributes (gettext env "Bluetooth Enabled") in
  let r := query_visibility false false env self in
  (self_of r, trace_of r).

(** The bus methods registered by [on_load]. *)
Definition GetVisibility (self : StatusIcon) : option bool := visible self.
Definition GetToolTipTitle (self : StatusIcon) : string := _tooltip_title self.
Definition GetToolTipText (self : StatusIcon) : option string := _tooltip_text self.
Definition GetStatusIconImplementations : Env -> list string :=
  _get_status_icon_implementations.
Definition GetIconName : Env -> string := _get_icon_name.

(** ** Runs of the plugin

    The calls the applet, the toolkit and other plugins make on a loaded
    StatusIcon.  A run is [on_load] followed by such calls, each in the
    environment current when it is made. *)

Inductive Op : Type :=
| OpQueryVisibility (delay_hiding emit : bool)
| OpVisibilityTimeout
| OpSetVisible (visible emit : bool)
| OpSetTooltipTitle (title : string)
| OpSetTooltipText (text : option string)
| OpSymbolicConfigChange (key : string)
| OpIconShouldChange
| OpAdapterAdded (path : string)
| OpAdapterRemoved (path : string)
| OpManagerStateChanged (state : bool)
| OpPluginsChanged (name : string).

Definition dispatch (op : Op) : M unit :=
  match op with
  | OpQueryVisibility d e => query_visibility d e
  | OpVisibilityTimeout => on_visibility_timeout ;; ret tt
  | OpSetVisible v e => set_visible v e
  | OpSetTooltipTitle t => set_tooltip_title t
  | OpSetTooltipText t => set_tooltip_text t
  | OpSymbolicConfigChange k => on_symbolic_config_change k
  | OpIconShouldChange => icon_should_change
  | OpAdapterAdded p => on_adapter_added p
  | OpAdapterRemoved p => on_adapter_removed p
  | OpManagerStateChanged s => on_manager_state_changed s
  | OpPluginsChanged n => _on_plugins_changed n
  end.

Fixpoint run_ops (ops : list (Env * Op)) (self : StatusIcon)
  : StatusIcon * list Event :=
  match ops with
  | [] => (self, [])
  | (env, op) :: rest =>
      let r := dispatch op env self in
      let '(self', t) := run_ops rest (self_of r) in
      (self', trace_of r ++ t)
  end.

Definition run (env0 : Env) (ops : list (Env * Op)) : StatusIcon * list Event :=
  let '(self0, t0) := on_load env0 in
  let '(self', t) := run_ops ops self0 in
  (self', t0 ++ t).

(** A change of the "symbolic-status-icons" key: the store holds the new
    value when the handler connected by [on_load] is called. *)
Definition with_symbolic_status_icons (b : bool) (env : Env) : Env :=
  {| get_adapters := get_adapters env;
     loaded_plugins := loaded_plugins env;
     symbolic_status_icons := b;
     manager_state := manager_state env;
     gettext := gettext env;
     timeout_add_id := timeout_add_id env |}.

Definition symbolic_config_changed (new : bool) : M unit :=
  fun env self =>
    on_symbolic_config_change "symbolic-status-icons"
      (with_symbolic_status_icons new env) self.

(** ** Reading a trace *)

Definition signals (t : list Event) : list Signal :=
  flat_map (fun e => match e with Emit s => [s] | _ => [] end) t.

Definition timeouts_added (t : list Event) : list (Z * Z) :=
  flat_map (fun e => match e with
                     | TimeoutAdd ms _ id => [(ms, id)]
                     | _ => []
                     end) t.

(** The value passed by the last [set_visible] of a trace, [init] if none. *)
Fixpoint last_set_visible (init : option bool) (t : list Event) : option bool :=
  match t with
  | [] => init
  | Enter (call_set_visible v _) :: t' => last_set_visible (Some v) t'
  | _ :: t' => last_set_visible init t'
  end.

Fixpoint last_set_tooltip_title (init : string) (t : list Event) : string :=
  match t with
  | [] => init
  | Enter (call_set_tooltip_title s) :: t' => last_set_tooltip_title s t'
  | _ :: t' => last_set_tooltip_title init t'
  end.

(** The text [set_tooltip_text] stores for an argument. *)
Definition stored_text (text : option string) : string :=
  match text with
  | None => ""
  | Some s => s
  end.

Fixpoint last_set_tooltip_text (init : string) (t : list Event) : string :=
  match t with
  | [] => init
  | Enter (call_set_tooltip_text a) :: t' => last_set_tooltip_text (stored_text a) t'
  | _ :: t' => last_set_tooltip_text init t'
  end.

(** The GLib sources a trace leaves attached, starting from [acc]. *)
Fixpoint attached_sources (acc : list Z) (t : list Event) : list Z :=
  match t with
  | [] => acc
  | TimeoutAdd _ _ id :: t' => attached_sources (acc ++ [id]) t'
  | SourceRemove id :: t' => attached_sources (remove Z.eq_dec id acc) t'
  | _ :: t' => attached_sources acc t'
  end.

(** ** Vocabulary of the properties *)

(** An adapter is present, or a loaded visibility handler answers [True]. *)
Definition visibility_forced (env : Env) : Prop :=
  get_adapters env <> []
  \/ exists p, In p (loaded_plugins env)
              /\ on_query_force_status_icon_visibility p = Some true.

(** A hide timeout is pending: the test [query_visibility] makes. *)
Definition timeout_pending (self : StatusIcon) : bool :=
  Py.truthy_opt_int (visibility_timeout self).

(** The icon chosen among the providers' answers: the last one that is not
    [None], the default name when there is none. *)
Definition selected_icon (icons : list (option string)) : string :=
  last (flat_map (fun icon => match icon with Some i => [i] | None => [] end)
          icons)
       "blueman-tray".

(** [sep.join(pieces)] *)
Fixpoint join (sep : string) (pieces : list string) : string :=
  match pieces with
  | [] => ""
  | [p] => p
  | p :: rest => (p ++ sep ++ join sep rest)%string
  end.

(** [pat] is a substring of [s]. *)
Definition occurs (pat s : string) : Prop :=
  exists a b, s = (a ++ pat ++ b)%string.

(** Non-increasing keys. *)
Definition key_desc {A} (key : A -> Z) (a b : A) : Prop := (key b <= key a)%Z.

(** Non-increasing priorities. *)
Definition by_priority_desc (l : list (string * Z)) : Prop :=
  StronglySorted (key_desc snd) l.

(** Entries of equal priority keep their relative order. *)
Definition same_order_within_priority (l l' : list (string * Z)) : Prop :=
  forall k : Z,
    filter (fun a => (snd a =? k)%Z) l = filter (fun a => (snd a =? k)%Z) l'.

(** The adapter and manager events of the Bluetooth stack. *)
Definition is_bluetooth_event (op : Op) : bool :=
  match op with
  | OpAdapterAdded _ | OpAdapterRemoved _ | OpManagerStateChanged _ => true
  | _ => false
  end.

(** The GLib sources the object knows of. *)
Definition known_sources (self : StatusIcon) : list Z :=
  match visibility_timeout self with
  | Some id => [id]
  | None => []
  end.

(** GLib hands out source ids greater than 0. *)
Definition glib_ids_positive (ops : list (Env * Op)) : Prop :=
  forall env op, In (env, op) ops -> (0 < timeout_add_id env)%Z.

(** The slots after a call are the values last set during the call. *)
Definition slots_follow (self : StatusIcon) (t : list Event)
  (self' : StatusIcon) : Prop :=
  visible self' = last_set_visible (visible self) t
  /\ _tooltip_title self' = last_set_tooltip_title (_tooltip_title self) t
  /\ (forall s, _tooltip_text self = Some s ->
                _tooltip_text self' = Some (last_set_tooltip_text s t)).

(** The stored id, if any, is one GLib handed out. *)
Definition timeout_id_valid (self : StatusIcon) : Prop :=
  forall id, visibility_timeout self = Some id -> (0 < id)%Z.

(** ** Vocabulary of the further properties *)

(** The processes a trace launches. *)
Definition launches (t : list Event) : list Event :=
  flat_map (fun e => match e with Launch _ _ _ => [e] | _ => [] end) t.

(** The calls that launch the tray process. *)
Definition launches_tray (op : Op) (env : Env) : bool :=
  match op with
  | OpManagerStateChanged state => state
  | OpPluginsChanged _ => manager_state env
  | _ => false
  end.

(** The values the [VisibilityChanged] signals of a trace carry. *)
Definition visibility_signals (t : list Event) : list bool :=
  flat_map (fun e => match e with
                     | Emit (VisibilityChanged v) => [v]
                     | _ => []
                     end) t.

(** What a bus client that follows the signals holds after a trace. *)
Fixpoint last_visibility_signal (init : option bool) (t : list Event)
  : option bool :=
  match t with
  | [] => init
  | Emit (VisibilityChanged v) :: t' => last_visibility_signal (Some v) t'
  | _ :: t' => last_visibility_signal init t'
  end.

Fixpoint last_title_signal (init : string) (t : list Event) : string :=
  match t with
  | [] => init
  | Emit (ToolTipTitleChanged s) :: t' => last_title_signal s t'
  | _ :: t' => last_title_signal init t'
  end.

Fixpoint last_text_signal (init : option string) (t : list Event)
  : option string :=
  match t with
  | [] => init
  | Emit (ToolTipTextChanged s) :: t' => last_text_signal s t'
  | _ :: t' => last_text_signal init t'
  end.

(** The calls made with [emit=False]. *)
Definition is_silent (op : Op) : bool :=
  match op with
  | OpQueryVisibility _ false | OpSetVisible _ false => true
  | _ => false
  end.

(** The calls that can set [visible] to [False] while a timeout is pending:
    a direct [set_visible(False, _)] and the timeout itself. *)
Definition hides_while_pending (op : Op) : bool :=
  match op with
  | OpSetVisible false _ | OpVisibilityTimeout => true
  | _ => false
  end.

(** The calls that read or write the visibility slots. *)
Definition concerns_visibility (op : Op) : bool :=
  match op with
  | OpSetTooltipTitle _ | OpSetTooltipText _ | OpPluginsChanged _ => false
  | _ => true
  end.

(** The calls that can write [visibility_timeout]. *)
Definition concerns_timeout (op : Op) : bool :=
  match op with
  | OpQueryVisibility true _ | OpVisibilityTimeout => true
  | _ => false
  end.

Definition with_loaded_plugins (plugins : list Plugin) (env : Env) : Env :=
  {| get_adapters := get_adapters env;
     loaded_plugins := plugins;
     symbolic_status_icons := symbolic_status_icons env;
     manager_state := manager_state env;
     gettext := gettext env;
     timeout_add_id := timeout_add_id env |}.

(** A plugin that neither forces the icon nor names one: it is no instance
    of the protocol class, or answers as the class default does. *)
Definition is_neutral (p : Plugin) : Prop :=
  (on_query_force_status_icon_visibility p = None
   \/ on_query_force_status_icon_visibility p
      = Some StatusIconVisibilityHandler.on_query_force_status_icon_visibility)
  /\ (on_status_icon_query_icon p = None
      \/ on_status_icon_query_icon p
         = Some StatusIconProvider.on_status_icon_query_icon).

(** [pat in s], decided. *)
Fixpoint occursb (pat s : string) : bool :=
  String.prefix pat s
  || match s with
     | EmptyString => false
     | String _ s' => occursb pat s'
     end.

(** The environment of the last plugin change of a sequence of calls. *)
Fixpoint last_plugins_changed (seen : option Env) (ops : list (Env * Op))
  : option Env :=
  match ops with
  | [] => seen
  | (env, OpPluginsChanged _) :: rest => last_plugins_changed (Some env) rest
  | _ :: rest => last_plugins_changed seen rest
  end.

(** The signals a call is entitled to: each kind comes from its own calls
    and carries the value they computed. *)
Definition signal_allowed (op : Op) (env : Env) (s : Signal) : Prop :=
  match s with
  | VisibilityChanged _ => concerns_visibility op = true /\ is_silent op = false
  | ToolTipTitleChanged t => op = OpSetTooltipTitle t
  | ToolTipTextChanged t =>
      exists text, op = OpSetTooltipText text /\ t = Some (stored_text text)
  | IconNameChanged n =>
      (op = OpIconShouldChange \/ exists key, op = OpSymbolicConfigChange key)
      /\ n = _get_icon_name env
  end.

(** The declared priorities are pairwise distinct. *)
Definition distinct_priorities (l : list (string * Z)) : Prop :=
  NoDup (map snd l).

(** ** Sample environments *)

Definition no_plugin : Plugin :=
  {| on_query_status_icon_implementation := None;
     on_query_force_status_icon_visibility := None;
     on_status_icon_query_icon := None |}.

Definition implementation_plugin (name : string) (priority : Z) : Plugin :=
  {| on_query_status_icon_implementation := Some (name, priority);
     on_query_force_status_icon_visibility := None;
     on_status_icon_query_icon := None |}.

Definition visibility_plugin (force : bool) : Plugin :=
  {| on_query_status_icon_implementation := None;
     on_query_force_status_icon_visibility := Some force;
     on_status_icon_query_icon := None |}.

Definition icon_plugin (icon : option string) : Plugin :=
  {| on_query_status_icon_implementation := None;
     on_query_force_status_icon_visibility := None;
     on_status_icon_query_icon := Some icon |}.

(** A plugin that derives from the three protocol classes and overrides
    nothing. *)
Definition default_plugin : Plugin :=
  {| on_query_status_icon_implementation :=
       Some StatusIconImplementationProvider.on_query_status_icon_implementation;
     on_query_force_status_icon_visibility :=
       Some StatusIconVisibilityHandler.on_query_force_status_icon_visibility;
     on_status_icon_query_icon :=
       Some StatusIconProvider.on_status_icon_query_icon |}.

Definition sample_env (adapters : list string) (plugins : list Plugin)
  (symbolic : bool) : Env :=
  {| get_adapters := adapters;
     loaded_plugins := plugins;
     symbolic_status_icons := symbolic;
     manager_state := true;
     gettext := fun msg => msg;
     timeout_add_id := 7 |}.

(** A catalogue that translates the tooltip title. *)
Definition german_env : Env :=
  {| get_adapters := [];
     loaded_plugins := [];
     symbolic_status_icons := false;
     manager_state := true;
     gettext := fun msg =>
       if String.eqb msg "Bluetooth Enabled" then "Bluetooth aktiviert" else msg;
     timeout_add_id := 7 |}.

Definition sample_self : StatusIcon := class_attributes "Bluetooth Enabled".

(** ** Proof automation *)

#[local] Arguments show_condition : simpl never.
#[local] Arguments _get_icon_name : simpl never.
#[local] Arguments _get_status_icon_implementations : simpl never.
#[local] Arguments Py.truthy_opt_int : simpl never.
#[local] Arguments list_string_eqb : simpl never.

(** Splits a method call into the paths its conditions select. *)
Ltac method_unfold :=
  unfold self_of, trace_of, result_of, dispatch, on_symbolic_config_change,
    icon_should_change, on_adapter_added, on_adapter_removed,
    on_manager_state_changed, _on_plugins_changed, on_visibility_timeout,
    query_visibility, set_visible, set_tooltip_title, set_tooltip_text,
    bind, ask, get, modify, tell, ret, _emit_dbus_signal, launch;
  cbn.

Ltac method_split :=
  repeat match goal with
    | |- context [if ?b then _ else _] => destruct b eqn:?; cbn
    | |- context [match visibility_timeout ?s with _ => _ end] =>
        destruct (visibility_timeout s) eqn:?; cbn
    | |- context [match _implementations ?s with _ => _ end] =>
        destruct (_implementations s) eqn:?; cbn
    end.

Ltac method_paths := method_unfold; method_split.

(** ** The definitions at work *)

Example replace_symbolic_icon :
  Py.replace "bluetooth-symbolic" "-symbolic" "" = "bluetooth".
Proof. reflexivity. Qed.

Example replace_twice :
  Py.replace "a-symbolicb-symbolic-symbolicc" "-symbolic" "" = "abc".
Proof. reflexivity. Qed.

Example replace_is_one_pass :
  Py.replace "x-sym-symbolicbolic" "-symbolic" "" = "x-symbolic".
Proof. reflexivity. Qed.

Example replace_general :
  Py.replace "aaa" "aa" "b" = "ba" /\ Py.replace "ab" "" "-" = "-a-b-".
Proof. split; reflexivity. Qed.

Example sorted_reverse_is_stable :
  Py.sorted_reverse snd [("a", 1%Z); ("b", 5%Z); ("c", 1%Z); ("d", 5%Z)]
  = [("b", 5%Z); ("d", 5%Z); ("a", 1%Z); ("c", 1%Z)].
Proof. reflexivity. Qed.

Example implementations_sample :
  _get_status_icon_implementations
    (sample_env [] [implementation_plugin "AppIndicator" 10; no_plugin;
                    implementation_plugin "StatusNotifierItem" 20] false)
  = ["StatusNotifierItem"; "AppIndicator"; "GtkStatusIcon"].
Proof. reflexivity. Qed.

Example icon_name_sample :
  _get_icon_name
    (sample_env [] [icon_plugin (Some "blueman-active-symbolic");
                    icon_plugin None] true)
  = "blueman-active-symbolic"
  /\ _get_icon_name (sample_env [] [icon_plugin None] false) = "blueman-tray".
Proof. split; reflexivity. Qed.

Example default_plugin_sample :
  let env := sample_env [] [default_plugin] false in
  _get_status_icon_implementations env = ["GtkStatusIcon"; "GtkStatusIcon"]
  /\ _get_icon_name env = "blueman-tray"
  /\ show_condition env = false.
Proof. repeat split. Qed.

Example translated_title_sample :
  GetToolTipTitle (fst (run german_env [])) = "Bluetooth aktiviert"
  /\ GetToolTipTitle (fst (run (sample_env [] [] false) []))
     = "Bluetooth Enabled".
Proof. split; reflexivity. Qed.

Example delayed_hide_sample :
  run (sample_env ["/org/bluez/hci0"] [] false)
      [(sample_env [] [] false, OpQueryVisibility true true);
       (sample_env [] [] false, OpAdapterRemoved "/org/bluez/hci0");
       (sample_env [] [] false, OpVisibilityTimeout)]
  = ({| visible := Some false; visibility_timeout := None;
        _implementations := None; _tooltip_title := "Bluetooth Enabled";
        _tooltip_text := Some "" |},
     [Enter (call_set_visible true false);
      TimeoutAdd 2500 cb_on_visibility_timeout 7;
      SourceRemove 7;
      Enter (call_set_visible false true);
      Emit (VisibilityChanged false)]).
Proof. reflexivity. Qed.

(** ** The monad computes *)

Lemma show_condition_forced (env : Env) :
  show_condition env = true <-> visibility_forced env.
Proof.
  unfold show_condition, visibility_forced.
  rewrite orb_true_iff. split.
  - intros [Ha | Hp].
    + left. destruct (get_adapters env); [discriminate | congruence].
    + right. unfold Py.any in Hp.
      induction (loaded_plugins env) as [| p ps IH]; cbn in Hp; [discriminate |].
      destruct (on_query_force_status_icon_visibility p) as [b |] eqn:Eb.
      * cbn in Hp. destruct b.
        -- exists p. split; [left; reflexivity | exact Eb].
        -- cbn in Hp. destruct (IH Hp) as [q [Hq1 Hq2]].
           exists q. split; [right; exact Hq1 | exact Hq2].
      * destruct (IH Hp) as [q [Hq1 Hq2]].
        exists q. split; [right; exact Hq1 | exact Hq2].
  - intros [Ha | [p [Hin Hp]]].
    + left. destruct (get_adapters env); [congruence | reflexivity].
    + right. unfold Py.any.
      induction (loaded_plugins env) as [| q qs IH]; [destruct Hin |].
      cbn. destruct Hin as [-> | Hin].
      * rewrite Hp. reflexivity.
      * destruct (on_query_force_status_icon_visibility q) as [[|] |];
          cbn; auto.
Qed.

Lemma show_condition_not_forced (env : Env) :
  show_condition env = false <-> ~ visibility_forced env.
Proof.
  rewrite <- show_condition_forced.
  destruct (show_condition env); split; congruence.
Qed.

(** [query_visibility] by cases. *)
Lemma query_visibility_show d e env self :
  show_condition env = true ->
  query_visibility d e env self = set_visible true e env self.
Proof.
  intros H. unfold query_visibility, bind, ask. rewrite H.
  destruct e; reflexivity.
Qed.

Lemma query_visibility_pending d e env self :
  show_condition env = false -> timeout_pending self = true ->
  query_visibility d e env self = (tt, self, []).
Proof.
  unfold timeout_pending. intros H Hp.
  unfold query_visibility, bind, ask, get. rewrite H. cbn. rewrite Hp.
  reflexivity.
Qed.

Lemma query_visibility_hide e env self :
  show_condition env = false -> timeout_pending self = false ->
  query_visibility false e env self = set_visible false e env self.
Proof.
  unfold timeout_pending. intros H Hp.
  unfold query_visibility, bind, ask, get. rewrite H. cbn. rewrite Hp.
  destruct e; reflexivity.
Qed.

Lemma query_visibility_delay e env self :
  show_condition env = false -> timeout_pending self = false ->
  query_visibility true e env self
  = (tt, with_visibility_timeout (Some (timeout_add_id env)) self,
     [TimeoutAdd 2500 cb_on_visibility_timeout (timeout_add_id env)]).
Proof.
  unfold timeout_pending. intros H Hp.
  unfold query_visibility, bind, ask, get. rewrite H. cbn. rewrite Hp.
  reflexivity.
Qed.

Lemma set_visible_eq v e env self :
  set_visible v e env self
  = (tt, with_visible (Some v) self,
     Enter (call_set_visible v e)
       :: (if e then [Emit (VisibilityChanged v)] else [])).
Proof. destruct e; reflexivity. Qed.

(** ** The visibility decision *)

(** C1. [query_visibility] sets [visible] to [True] whenever an adapter is
    present or a loaded visibility handler forces the icon; otherwise, with
    no hide timeout pending and [delay_hiding] false, it sets [visible] to
    [False]. *)
Theorem query_visibility_decision :
  forall (delay_hiding emit : bool) (env : Env) (self : StatusIcon),
    (visibility_forced env ->
     visible (self_of (query_visibility delay_hiding emit env self)) = Some true)
    /\ (~ visibility_forced env ->
        timeout_pending self = false ->
        delay_hiding = false ->
        visible (self_of (query_visibility delay_hiding emit env self))
        = Some false).
Proof.
  intros d e env self. split.
  - intros Hf. apply show_condition_forced in Hf.
    rewrite (query_visibility_show d e env self Hf), set_visible_eq.
    reflexivity.
  - intros Hn Hp ->. apply show_condition_not_forced in Hn.
    rewrite (query_visibility_hide e env self Hn Hp), set_visible_eq.
    reflexivity.
Qed.

Lemma query_visibility_decision_witness :
  visible (self_of (query_visibility true true
                      (sample_env ["/org/bluez/hci0"] [] false) sample_self))
  = Some true
  /\ visible (self_of (query_visibility false true
                         (sample_env [] [visibility_plugin false] false)
                         sample_self))
     = Some false.
Proof.
  split.
  - apply (proj1 (query_visibility_decision true true
                    (sample_env ["/org/bluez/hci0"] [] false) sample_self)).
    left. cbn. discriminate.
  - apply (proj2 (query_visibility_decision false true
                    (sample_env [] [visibility_plugin false] false)
                    sample_self)).
    + apply show_condition_not_forced. reflexivity.
    + reflexivity.
    + reflexivity.
Defined.

(** ** Forwarding to the bus *)

(** C4. The setters forward the new value to the bus: [set_tooltip_title]
    emits [ToolTipTitleChanged] with the title, [set_tooltip_text] emits
    [ToolTipTextChanged] with the stored text, and [set_visible(v, emit=True)]
    emits [VisibilityChanged] with [v]; in each case the value carried is the
    one now stored. *)
Theorem setters_forward_to_bus :
  (forall (title : string) (env : Env) (self : StatusIcon),
      let r := set_tooltip_title title env self in
      signals (trace_of r) = [ToolTipTitleChanged title]
      /\ _tooltip_title (self_of r) = title)
  /\ (forall (text : option string) (env : Env) (self : StatusIcon),
         let r := set_tooltip_text text env self in
         signals (trace_of r) = [ToolTipTextChanged (_tooltip_text (self_of r))]
         /\ _tooltip_text (self_of r) = Some (stored_text text))
  /\ (forall (v : bool) (env : Env) (self : StatusIcon),
         let r := set_visible v true env self in
         signals (trace_of r) = [VisibilityChanged v]
         /\ visible (self_of r) = Some v).
Proof.
  repeat split; reflexivity.
Qed.

(** C7. A change of the symbolic-status-icons key emits [IconNameChanged]
    carrying the name [_get_icon_name] computes under the new setting, and
    then queries visibility again. *)
Theorem symbolic_config_change_forwards_icon_name :
  forall (new : bool) (env : Env) (self : StatusIcon),
    let env' := with_symbolic_status_icons new env in
    let q := query_visibility false true env' self in
    symbolic_config_changed new env self
    = (tt, self_of q, Emit (IconNameChanged (_get_icon_name env')) :: trace_of q)
    /\ symbolic_status_icons env' = new
    /\ on_symbolic_config_change "symbolic-status-icons" env' self
       = icon_should_change env' self.
Proof.
  intros new env self env' q. subst q. repeat split.
  unfold symbolic_config_changed. fold env'.
  unfold on_symbolic_config_change, icon_should_change, bind, ask,
    _emit_dbus_signal, tell, self_of, trace_of.
  destruct (query_visibility false true env' self) as [[[] s] t].
  reflexivity.
Qed.

(** ** The icon follows the Bluetooth state *)

Lemma bluetooth_event_queries op env self :
  is_bluetooth_event op = true ->
  self_of (dispatch op env self) = self_of (query_visibility false true env self)
  /\ exists after,
      trace_of (dispatch op env self)
      = trace_of (query_visibility false true env self) ++ after.
Proof.
  destruct op; cbn [is_bluetooth_event]; try discriminate; intros _.
  - split; [reflexivity | exists []; rewrite app_nil_r; reflexivity].
  - split; [reflexivity | exists []; rewrite app_nil_r; reflexivity].
  - unfold dispatch, on_manager_state_changed, bind, self_of, trace_of.
    destruct (query_visibility false true env self) as [[[] s] t].
    destruct state; cbn.
    + split; [reflexivity | eexists; reflexivity].
    + split; [reflexivity | eexists; reflexivity].
Qed.

Lemma query_visibility_keeps_timeout e env self :
  visibility_timeout (self_of (query_visibility false e env self))
  = visibility_timeout self.
Proof. method_paths; reflexivity. Qed.

(** C6. Every adapter-added, adapter-removed and manager-state-changed event
    runs [query_visibility] again; in the state it leaves, when no hide
    timeout is pending, [visible] is [True] exactly when an adapter is present
    or a loaded handler forces visibility, and [False] otherwise. *)
Theorem bluetooth_events_track_state :
  forall (op : Op) (env : Env) (self : StatusIcon),
    is_bluetooth_event op = true ->
    let self' := self_of (dispatch op env self) in
    self' = self_of (query_visibility false true env self)
    /\ (exists after,
           trace_of (dispatch op env self)
           = trace_of (query_visibility false true env self) ++ after)
    /\ (timeout_pending self' = false ->
        (visible self' = Some true <-> visibility_forced env)
        /\ (visible self' = Some false <-> ~ visibility_forced env)).
Proof.
  intros op env self Hop self'.
  destruct (bluetooth_event_queries op env self Hop) as [Hq Ht].
  split; [exact Hq | split; [exact Ht |]].
  subst self'. rewrite Hq. intros Hp.
  unfold timeout_pending in Hp. rewrite query_visibility_keeps_timeout in Hp.
  destruct (show_condition env) eqn:Hs.
  - rewrite (query_visibility_show false true env self Hs), set_visible_eq.
    cbn. apply show_condition_forced in Hs. split; split; intros H;
      try reflexivity; try assumption; try discriminate; contradiction.
  - rewrite (query_visibility_hide true env self Hs Hp), set_visible_eq.
    cbn. apply show_condition_not_forced in Hs. split; split; intros H;
      try reflexivity; try assumption; try discriminate; contradiction.
Qed.

Lemma bluetooth_events_track_state_witness :
  let env := sample_env [] [visibility_plugin true] false in
  let self' := self_of (dispatch (OpAdapterRemoved "/org/bluez/hci0") env
                          sample_self) in
  (visible self' = Some true <-> visibility_forced env)
  /\ (visible self' = Some false <-> ~ visibility_forced env).
Proof.
  intros env self'.
  destruct (bluetooth_events_track_state (OpAdapterRemoved "/org/bluez/hci0")
              env sample_self eq_refl) as [_ [_ H]].
  apply H. reflexivity.
Defined.

(** ** The sort of the implementations *)

Section SortedReverse.
Context {A : Type} (key : A -> Z).

Lemma insert_desc_perm (x : A) (l : list A) :
  Permutation (x :: l) (Py.insert_desc key x l).
Proof.
  induction l as [| y l IH]; cbn.
  - apply Permutation_refl.
  - destruct (key x <? key y)%Z.
    + eapply perm_trans; [apply perm_swap |].
      apply perm_skip. exact IH.
    + apply Permutation_refl.
Qed.

Lemma sorted_reverse_perm (l : list A) :
  Permutation l (Py.sorted_reverse key l).
Proof.
  induction l as [| x l IH]; cbn.
  - apply perm_nil.
  - eapply perm_trans; [apply perm_skip; exact IH |].
    apply insert_desc_perm.
Qed.

Lemma insert_desc_sorted (x : A) (l : list A) :
  StronglySorted (key_desc key) l ->
  StronglySorted (key_desc key) (Py.insert_desc key x l).
Proof.
  induction 1 as [| y l Hs IH Hy]; cbn.
  - constructor; constructor.
  - destruct (key x <? key y)%Z eqn:E.
    + apply Z.ltb_lt in E. constructor; [exact IH |].
      apply Forall_forall. intros z Hz.
      apply (Permutation_in z (Permutation_sym (insert_desc_perm x l))) in Hz.
      destruct Hz as [<- | Hz].
      * unfold key_desc. lia.
      * rewrite Forall_forall in Hy. apply Hy. exact Hz.
    + apply Z.ltb_ge in E. constructor.
      * constructor; assumption.
      * constructor; [exact E |].
        rewrite Forall_forall in Hy |- *. intros z Hz.
        specialize (Hy z Hz). unfold key_desc in *. lia.
Qed.

Lemma sorted_reverse_sorted (l : list A) :
  StronglySorted (key_desc key) (Py.sorted_reverse key l).
Proof.
  induction l as [| x l IH]; cbn.
  - constructor.
  - apply insert_desc_sorted. exact IH.
Qed.

Lemma insert_desc_stable (k : Z) (x : A) (l : list A) :
  filter (fun a => (key a =? k)%Z) (Py.insert_desc key x l)
  = filter (fun a => (key a =? k)%Z) (x :: l).
Proof.
  induction l as [| y l IH]; cbn.
  - reflexivity.
  - destruct (key x <? key y)%Z eqn:E; [| reflexivity].
    apply Z.ltb_lt in E. cbn. cbn in IH. rewrite IH.
    destruct (key x =? k)%Z eqn:Ex; destruct (key y =? k)%Z eqn:Ey;
      try reflexivity.
    apply Z.eqb_eq in Ex, Ey. lia.
Qed.

Lemma sorted_reverse_stable (k : Z) (l : list A) :
  filter (fun a => (key a =? k)%Z) (Py.sorted_reverse key l)
  = filter (fun a => (key a =? k)%Z) l.
Proof.
  induction l as [| x l IH]; cbn.
  - reflexivity.
  - rewrite insert_desc_stable. cbn. rewrite IH. reflexivity.
Qed.

(** A permutation in non-increasing key order that keeps equal keys in
    their order is unique: any stable sort returns [sorted_reverse]. *)
Lemma stable_sort_unique (l1 l2 : list A) :
  Permutation l1 l2 ->
  StronglySorted (key_desc key) l1 -> StronglySorted (key_desc key) l2 ->
  (forall k, filter (fun a => (key a =? k)%Z) l1
             = filter (fun a => (key a =? k)%Z) l2) ->
  l1 = l2.
Proof.
  revert l2. induction l1 as [| a l1 IH]; intros l2 Hp H1 H2 Hf.
  - apply Permutation_nil in Hp. congruence.
  - destruct l2 as [| b l2].
    + apply Permutation_sym, Permutation_nil in Hp. discriminate.
    + inversion H1 as [| ? ? Hs1 Ha]; subst.
      inversion H2 as [| ? ? Hs2 Hb]; subst.
      rewrite Forall_forall in Ha, Hb.
      assert (Hab : key a = key b).
      { assert (Hina : In a (b :: l2))
          by (apply (Permutation_in a Hp); left; reflexivity).
        assert (Hinb : In b (a :: l1))
          by (apply (Permutation_in b (Permutation_sym Hp)); left;
              reflexivity).
        destruct Hina as [-> | Hina]; [reflexivity |].
        destruct Hinb as [-> | Hinb]; [reflexivity |].
        specialize (Ha b Hinb). specialize (Hb a Hina).
        unfold key_desc in *. lia. }
      assert (Heq : a = b).
      { specialize (Hf (key a)). cbn in Hf.
        rewrite Z.eqb_refl in Hf. rewrite <- Hab, Z.eqb_refl in Hf.
        congruence. }
      subst b. f_equal. apply IH; try assumption.
      * apply Permutation_cons_inv with (a := a). exact Hp.
      * intros k. specialize (Hf k). cbn in Hf.
        destruct (key a =? k)%Z; congruence.
Qed.
End SortedReverse.

Lemma last_app_singleton {A} (l : list A) (x d : A) : last (l ++ [x]) d = x.
Proof.
  induction l as [| a l IH]; [reflexivity |].
  cbn [app last]. destruct (l ++ [x]) eqn:E.
  - destruct l; discriminate.
  - exact IH.
Qed.

(** C2. The list returned by [_get_status_icon_implementations], which is
    also what the bus method GetStatusIconImplementations returns, lists the
    names the plugins declare in order of non-increasing declared priority:
    it is the result of one stable sort of the declared (name, priority)
    pairs, projected to the names (and followed by the fallback). *)
Theorem implementations_by_priority :
  forall env : Env,
    let declared :=
      get_loaded_plugins on_query_status_icon_implementation
        (loaded_plugins env) in
    let ordered := Py.sorted_reverse snd declared in
    Permutation declared ordered
    /\ by_priority_desc ordered
    /\ same_order_within_priority declared ordered
    /\ _get_status_icon_implementations env = map fst ordered ++ ["GtkStatusIcon"]
    /\ GetStatusIconImplementations env = _get_status_icon_implementations env.
Proof.
  intros env declared ordered. repeat split.
  - apply sorted_reverse_perm.
  - apply sorted_reverse_sorted.
  - intros k. symmetry. apply sorted_reverse_stable.
Qed.

(** C8. Whatever plugins are loaded, none included, the list returned by
    [_get_status_icon_implementations] is not empty and ends with the
    fallback "GtkStatusIcon", appended after the sorted declared names. *)
Theorem implementations_end_with_fallback :
  forall env : Env,
    let l := _get_status_icon_implementations env in
    l <> []
    /\ (forall d, last l d = "GtkStatusIcon")
    /\ removelast l
       = map fst (Py.sorted_reverse snd
                    (get_loaded_plugins on_query_status_icon_implementation
                       (loaded_plugins env)))
    /\ (loaded_plugins env = [] -> l = ["GtkStatusIcon"]).
Proof.
  intros env l. subst l. unfold _get_status_icon_implementations.
  repeat split.
  - intros H. apply app_eq_nil in H. destruct H as [_ H]. discriminate.
  - intros d. apply last_app_singleton.
  - apply removelast_last.
  - intros ->. reflexivity.
Qed.

Lemma implementations_end_with_fallback_witness :
  _get_status_icon_implementations (sample_env ["/org/bluez/hci0"] [] true)
  = ["GtkStatusIcon"].
Proof.
  apply (implementations_end_with_fallback
           (sample_env ["/org/bluez/hci0"] [] true)).
  reflexivity.
Defined.

(** ** Strings and [replace] *)

Section Strings.
Local Open Scope string_scope.

Lemma append_nil_r (s : string) : s ++ "" = s.
Proof. induction s as [| c s IH]; cbn; [| rewrite IH]; reflexivity. Qed.

Lemma append_assoc (a b c : string) : (a ++ b) ++ c = a ++ (b ++ c).
Proof. induction a as [| x a IH]; cbn; [| rewrite IH]; reflexivity. Qed.

Lemma length_append (a b : string) :
  String.length (a ++ b) = (String.length a + String.length b)%nat.
Proof. induction a as [| x a IH]; cbn; [| rewrite IH]; reflexivity. Qed.

Lemma prefix_append (a b : string) : String.prefix a (a ++ b) = true.
Proof.
  induction a as [| x a IH]; cbn.
  - destruct b; reflexivity.
  - destruct (ascii_dec x x); [exact IH | congruence].
Qed.

Lemma prefix_split (a s : string) :
  String.prefix a s = true -> exists rest, s = a ++ rest.
Proof.
  revert s. induction a as [| x a IH]; intros s H.
  - exists s. reflexivity.
  - destruct s as [| y s]; cbn in H; [discriminate |].
    destruct (ascii_dec x y) as [-> |]; [| discriminate].
    destruct (IH s H) as [rest ->]. exists rest. reflexivity.
Qed.

Variables old new : string.

Lemma replace_from_skip (a rest : string) :
  Py.replace_from (String.length a) old new (a ++ rest)
  = Py.replace_from 0 old new rest.
Proof. induction a as [| x a IH]; cbn; [reflexivity | exact IH]. Qed.

Lemma replace_from_match (c : ascii) (old' rest : string) :
  old = String c old' ->
  Py.replace_from 0 old new (old ++ rest)
  = new ++ Py.replace_from 0 old new rest.
Proof.
  intros E. rewrite E at 2. cbn [append Py.replace_from].
  unfold Py.startswith.
  replace (String c (old' ++ rest)) with (old ++ rest) by (rewrite E; reflexivity).
  rewrite prefix_append.
  replace (String.length old - 1)%nat with (String.length old')
    by (rewrite E; cbn; lia).
  rewrite replace_from_skip. reflexivity.
Qed.

Lemma replace_from_no_match (c : ascii) (s : string) :
  String.prefix old (String c s) = false ->
  Py.replace_from 0 old new (String c s)
  = String c (Py.replace_from 0 old new s).
Proof.
  intros H. cbn [Py.replace_from]. unfold Py.startswith. rewrite H.
  reflexivity.
Qed.

Lemma join_cons (sep p q : string) (rest : list string) :
  join sep (p :: q :: rest) = p ++ sep ++ join sep (q :: rest).
Proof. reflexivity. Qed.

Lemma join_head_prefix (sep p : string) (rest : list string) :
  exists tl, join sep (p :: rest) = p ++ tl.
Proof.
  destruct rest as [| q rest].
  - exists "". cbn. rewrite append_nil_r. reflexivity.
  - eexists. apply join_cons.
Qed.

Lemma join_cons_char (sep : string) (c : ascii) (p : string)
  (rest : list string) :
  join sep (String c p :: rest) = String c (join sep (p :: rest)).
Proof. destruct rest; reflexivity. Qed.

(** [s.replace(old, new) == new.join(s.split(old))]: the string is cut at
    occurrences of [old], the pieces between the cuts contain no [old], and
    the result joins the pieces with [new]. *)
Lemma replace_from_pieces (c : ascii) (old' : string) :
  old = String c old' ->
  forall (n : nat) (s : string),
    (String.length s < n)%nat ->
    exists pieces,
      pieces <> []
      /\ s = join old pieces
      /\ Forall (fun p => ~ occurs old p) pieces
      /\ Py.replace_from 0 old new s = join new pieces.
Proof.
  intros E. induction n as [| n IH]; intros s Hlen; [lia |].
  destruct s as [| x s].
  - exists [""]. repeat split; try discriminate.
    constructor; [| constructor].
    intros [a [b H]]. rewrite E in H.
    destruct a; cbn in H; discriminate.
  - destruct (String.prefix old (String x s)) eqn:Hp.
    + destruct (prefix_split _ _ Hp) as [rest Hrest].
      assert (Hl : (String.length rest < n)%nat).
      { apply (f_equal String.length) in Hrest.
        rewrite length_append, E in Hrest. cbn in Hrest, Hlen. lia. }
      destruct (IH rest Hl) as [ps [Hne [Hj [Hf Hr]]]].
      destruct ps as [| q ps]; [congruence |].
      exists ("" :: q :: ps). repeat split.
      * discriminate.
      * rewrite join_cons, <- Hj. exact Hrest.
      * constructor; [| exact Hf].
        intros [a [b H]]. rewrite E in H.
        destruct a; cbn in H; discriminate.
      * rewrite Hrest, (replace_from_match c old' rest E), Hr, join_cons.
        reflexivity.
    + assert (Hl : (String.length s < n)%nat) by (cbn in Hlen; lia).
      destruct (IH s Hl) as [ps [Hne [Hj [Hf Hr]]]].
      destruct ps as [| q ps]; [congruence |].
      exists (String x q :: ps). repeat split.
      * discriminate.
      * rewrite join_cons_char, <- Hj. reflexivity.
      * pose proof (Forall_inv Hf) as Hq.
        pose proof (Forall_inv_tail Hf) as Hps.
        constructor; [| exact Hps].
        intros [a [b H]]. destruct a as [| y a]; cbn in H.
        -- destruct (join_head_prefix old q ps) as [tl Htl].
           assert (Hpre : String.prefix old (String x q ++ tl) = true).
           { rewrite H, append_assoc. apply prefix_append. }
           cbn [append] in Hpre. rewrite <- Htl in Hpre. congruence.
        -- injection H as _ H. apply Hq. exists a, b. exact H.
      * rewrite (replace_from_no_match x s Hp), Hr, join_cons_char.
        reflexivity.
Qed.
End Strings.

Lemma replace_pieces (old new s : string) :
  old <> ""%string ->
  exists pieces,
    s = join old pieces
    /\ Forall (fun p => ~ occurs old p) pieces
    /\ Py.replace s old new = join new pieces.
Proof.
  intros Hold. destruct old as [| c old'] eqn:E; [congruence |].
  destruct (replace_from_pieces (String c old') new c old' eq_refl
              (S (String.length s)) s (Nat.lt_succ_diag_r _))
    as [ps [_ [Hj [Hf Hr]]]].
  exists ps. repeat split; assumption.
Qed.

(** The loop of [_get_icon_name] keeps the last answer that is not [None]. *)
Lemma last_cons {A} (a d : A) (l : list A) : last (a :: l) d = last l a.
Proof.
  revert a d. induction l as [| b l IH]; intros a d; [reflexivity |].
  change (last (a :: b :: l) d) with (last (b :: l) d).
  rewrite (IH b d), (IH b a). reflexivity.
Qed.

Lemma icon_loop_last (name : string) (icons : list (option string)) :
  icon_loop name icons
  = last (flat_map (fun icon => match icon with Some i => [i] | None => [] end)
            icons)
         name.
Proof.
  revert name. induction icons as [| [i |] icons IH]; intros name; cbn.
  - reflexivity.
  - rewrite IH. symmetry.
    exact (last_cons i name _).
  - apply IH.
Qed.

Lemma icon_loop_cases (name : string) (icons : list (option string)) :
  (Forall (eq None) icons /\ icon_loop name icons = name)
  \/ (exists before i after,
         icons = before ++ Some i :: after
         /\ Forall (eq None) after
         /\ icon_loop name icons = i).
Proof.
  revert name. induction icons as [| [i |] icons IH]; intros name; cbn.
  - left. split; [constructor | reflexivity].
  - right. destruct (IH i) as [[Hn Hl] | [b [j [a [Hi [Hn Hl]]]]]].
    + exists [], i, icons. split; [reflexivity | split; assumption].
    + exists (Some i :: b), j, a. subst icons.
      split; [reflexivity | split; assumption].
  - destruct (IH name) as [[Hn Hl] | [b [j [a [Hi [Hn Hl]]]]]].
    + left. split; [constructor; [reflexivity | exact Hn] | exact Hl].
    + right. exists (None :: b), j, a. subst icons.
      split; [reflexivity | split; assumption].
Qed.

(** C3. The icon name [_get_icon_name] returns, which is what the GetIconName
    bus method returns, is the answer of the last loaded StatusIconProvider
    that is not [None], "blueman-tray" when there is none, with every
    "-symbolic" cut out, the pieces left containing none, and with
    "-symbolic" appended exactly when the symbolic-status-icons setting is
    true. *)
Theorem icon_name_spec :
  forall env : Env,
    let selected :=
      selected_icon
        (get_loaded_plugins on_status_icon_query_icon (loaded_plugins env)) in
    let answers :=
      get_loaded_plugins on_status_icon_query_icon (loaded_plugins env) in
    let suffix := if symbolic_status_icons env then "-symbolic" else "" in
    _get_icon_name env = (Py.replace selected "-symbolic" "" ++ suffix)%string
    /\ ((Forall (eq None) answers /\ selected = "blueman-tray")
        \/ (exists before icon after,
               answers = before ++ Some icon :: after
               /\ Forall (eq None) after
               /\ selected = icon))
    /\ (exists pieces,
           selected = join "-symbolic" pieces
           /\ Forall (fun p => ~ occurs "-symbolic" p) pieces
           /\ _get_icon_name env = (join "" pieces ++ suffix)%string)
    /\ GetIconName env = _get_icon_name env.
Proof.
  intros env selected answers suffix.
  assert (H : _get_icon_name env
              = (Py.replace selected "-symbolic" "" ++ suffix)%string).
  { unfold _get_icon_name, selected, selected_icon, suffix.
    rewrite icon_loop_last.
    destruct (symbolic_status_icons env);
      [reflexivity | rewrite append_nil_r; reflexivity]. }
  split; [exact H | split; [| split; [| reflexivity]]].
  - unfold selected, selected_icon. rewrite <- icon_loop_last.
    apply icon_loop_cases.
  - destruct (replace_pieces "-symbolic" "" selected) as [ps [Hj [Hf Hr]]];
      [discriminate |].
    exists ps. repeat split; try assumption.
    rewrite H, Hr. reflexivity.
Qed.

(** ** Runs: what the getters report *)

Lemma last_set_visible_app (t1 t2 : list Event) (init : option bool) :
  last_set_visible init (t1 ++ t2)
  = last_set_visible (last_set_visible init t1) t2.
Proof.
  revert init. induction t1 as [| e t1 IH]; intros init; [reflexivity |].
  destruct e as [[v em | s | s] | | | |]; cbn; apply IH.
Qed.

Lemma last_set_tooltip_title_app (t1 t2 : list Event) (init : string) :
  last_set_tooltip_title init (t1 ++ t2)
  = last_set_tooltip_title (last_set_tooltip_title init t1) t2.
Proof.
  revert init. induction t1 as [| e t1 IH]; intros init; [reflexivity |].
  destruct e as [[v em | s | s] | | | |]; cbn; apply IH.
Qed.

Lemma last_set_tooltip_text_app (t1 t2 : list Event) (init : string) :
  last_set_tooltip_text init (t1 ++ t2)
  = last_set_tooltip_text (last_set_tooltip_text init t1) t2.
Proof.
  revert init. induction t1 as [| e t1 IH]; intros init; [reflexivity |].
  destruct e as [[v em | s | s] | | | |]; cbn; apply IH.
Qed.

Lemma dispatch_slots_follow (op : Op) (env : Env) (self : StatusIcon) :
  slots_follow self (trace_of (dispatch op env self))
    (self_of (dispatch op env self)).
Proof.
  unfold slots_follow.
  destruct op; method_paths; repeat split; intros; try reflexivity;
    try assumption.
Qed.

Lemma run_ops_slots_follow (ops : list (Env * Op)) (self : StatusIcon) :
  slots_follow self (snd (run_ops ops self)) (fst (run_ops ops self)).
Proof.
  revert self. induction ops as [| [env op] ops IH]; intros self.
  - cbn. repeat split. intros s H. exact H.
  - cbn [run_ops].
    pose proof (dispatch_slots_follow op env self) as [Hv [Ht Hx]].
    specialize (IH (self_of (dispatch op env self))).
    destruct (run_ops ops (self_of (dispatch op env self))) as [self' t].
    destruct IH as [Hv' [Ht' Hx']]. cbn [fst snd] in *.
    unfold slots_follow.
    rewrite last_set_visible_app, last_set_tooltip_title_app, <- Hv, <- Ht.
    repeat split; try assumption.
    intros s Hs. rewrite last_set_tooltip_text_app.
    apply Hx'. apply Hx. exact Hs.
Qed.

(** [on_load] always decides visibility. *)
Lemma on_load_slots (env : Env) :
  let self := fst (on_load env) in
  let t := snd (on_load env) in
  visible self = last_set_visible None t
  /\ (exists v, visible self = Some v)
  /\ _tooltip_title self = gettext env "Bluetooth Enabled"
  /\ last_set_tooltip_title (gettext env "Bluetooth Enabled") t
     = gettext env "Bluetooth Enabled"
  /\ _tooltip_text self = Some ""
  /\ last_set_tooltip_text "" t = "".
Proof.
  unfold on_load. method_paths; repeat split; eauto.
  unfold Py.truthy_opt_int in *. cbn in *. discriminate.
Qed.

Lemma last_set_visible_some (t : list Event) (v : bool) :
  exists v', last_set_visible (Some v) t = Some v'.
Proof.
  revert v. induction t as [| e t IH]; intros v; [exists v; reflexivity |].
  destruct e as [[w em | s | s] | | | |]; cbn; apply IH.
Qed.

(** C5, as the code has it.  After [on_load] and any sequence of calls,
    GetVisibility returns the value last passed to [set_visible] (there
    always is one), GetToolTipTitle returns the title last passed to
    [set_tooltip_title], initially the translation [_("Bluetooth Enabled")]
    of the current catalogue, and GetToolTipText returns the text last stored
    by [set_tooltip_text], initially the empty string. *)
Theorem getters_report_last_set :
  forall (env0 : Env) (ops : list (Env * Op)),
    let self := fst (run env0 ops) in
    let t := snd (run env0 ops) in
    GetVisibility self = last_set_visible None t
    /\ (exists v, GetVisibility self = Some v)
    /\ GetToolTipTitle self
       = last_set_tooltip_title (gettext env0 "Bluetooth Enabled") t
    /\ GetToolTipText self = Some (last_set_tooltip_text "" t).
Proof.
  intros env0 ops self t. subst self t.
  unfold run, GetVisibility, GetToolTipTitle, GetToolTipText.
  pose proof (on_load_slots env0) as [Hv [[v0 Hv0] [Ht [Ht' [Hx Hx']]]]].
  destruct (on_load env0) as [self0 t0]. cbn [fst snd] in *.
  pose proof (run_ops_slots_follow ops self0) as [Hv1 [Ht1 Hx1]].
  destruct (run_ops ops self0) as [self' t]. cbn [fst snd] in *.
  rewrite last_set_visible_app, last_set_tooltip_title_app,
    last_set_tooltip_text_app.
  rewrite <- Hv, Ht', Hx', <- Ht. repeat split.
  - exact Hv1.
  - rewrite Hv1, Hv0. apply last_set_visible_some.
  - exact Ht1.
  - apply Hx1. exact Hx.
Qed.

(** C5 as stated fails: under a catalogue that translates the message, the
    title right after [on_load] is the translation, not "Bluetooth Enabled". *)
Lemma tooltip_title_initially_translated :
  ~ (forall (env0 : Env) (ops : list (Env * Op)),
        let self := fst (run env0 ops) in
        let t := snd (run env0 ops) in
        GetVisibility self = last_set_visible None t
        /\ GetToolTipTitle self = last_set_tooltip_title "Bluetooth Enabled" t
        /\ GetToolTipText self = Some (last_set_tooltip_text "" t)).
Proof.
  intros H. destruct (H german_env []) as [_ [Ht _]].
  vm_compute in Ht. discriminate.
Qed.

(** C9. [set_tooltip_text(None)] stores the empty string and the
    [ToolTipTextChanged] signal carries the empty string; in no run does
    GetToolTipText return [None]. *)
Theorem tooltip_text_never_none :
  (forall (env : Env) (self : StatusIcon),
      let r := set_tooltip_text None env self in
      _tooltip_text (self_of r) = Some ""
      /\ signals (trace_of r) = [ToolTipTextChanged (Some "")])
  /\ (forall (env0 : Env) (ops : list (Env * Op)),
         GetToolTipText (fst (run env0 ops)) <> None
         /\ exists s, GetToolTipText (fst (run env0 ops)) = Some s).
Proof.
  split.
  - intros env self. split; reflexivity.
  - intros env0 ops. unfold run, GetToolTipText.
    pose proof (on_load_slots env0) as [_ [_ [_ [_ [Hx _]]]]].
    destruct (on_load env0) as [self0 t0]. cbn [fst snd] in *.
    pose proof (run_ops_slots_follow ops self0) as [_ [_ Hx1]].
    destruct (run_ops ops self0) as [self' t]. cbn [fst snd] in *.
    rewrite (Hx1 _ Hx). split; [discriminate | eauto].
Qed.

(** ** The hide timeout *)

Lemma attached_sources_app (t1 t2 : list Event) (acc : list Z) :
  attached_sources acc (t1 ++ t2)
  = attached_sources (attached_sources acc t1) t2.
Proof.
  revert acc. induction t1 as [| e t1 IH]; intros acc; [reflexivity |].
  destruct e; cbn; apply IH.
Qed.

Lemma truthy_positive (id : Z) : (0 < id)%Z -> Py.truthy_opt_int (Some id) = true.
Proof.
  intros H. unfold Py.truthy_opt_int.
  destruct (Z.eqb_spec id 0); [lia | reflexivity].
Qed.

Lemma dispatch_keeps_sources (op : Op) (env : Env) (self : StatusIcon) :
  (0 < timeout_add_id env)%Z ->
  timeout_id_valid self ->
  timeout_id_valid (self_of (dispatch op env self))
  /\ attached_sources (known_sources self) (trace_of (dispatch op env self))
     = known_sources (self_of (dispatch op env self)).
Proof.
  intros Hid Hv. unfold timeout_id_valid, known_sources in *.
  destruct self as [v [z |] im ti tx]; cbn in Hv.
  - assert (Hz : Py.truthy_opt_int (Some z) = true)
      by (apply truthy_positive, Hv; reflexivity).
    destruct op; method_unfold; method_split;
      try (exfalso; rewrite Hz in *; discriminate);
      try (exfalso; congruence);
      (split; [intros id' Hid'; try discriminate; apply Hv; exact Hid'
              | reflexivity]).
  - change (Py.truthy_opt_int None) with false in *.
    destruct op; method_unfold;
      change (Py.truthy_opt_int None) with false; cbn; method_split;
      (split; [intros id' Hid'; try discriminate;
               try (injection Hid' as <-; exact Hid)
              | reflexivity]).
Qed.

Lemma run_ops_keeps_sources (ops : list (Env * Op)) (self : StatusIcon) :
  glib_ids_positive ops ->
  timeout_id_valid self ->
  timeout_id_valid (fst (run_ops ops self))
  /\ attached_sources (known_sources self) (snd (run_ops ops self))
     = known_sources (fst (run_ops ops self)).
Proof.
  revert self. induction ops as [| [env op] ops IH]; intros self Hpos Hv.
  - split; [exact Hv | reflexivity].
  - cbn [run_ops].
    assert (Hid : (0 < timeout_add_id env)%Z)
      by (apply (Hpos env op); left; reflexivity).
    destruct (dispatch_keeps_sources op env self Hid Hv) as [Hv1 Hs1].
    assert (Hpos' : glib_ids_positive ops)
      by (intros e o Hin; apply (Hpos e o); right; exact Hin).
    specialize (IH (self_of (dispatch op env self)) Hpos' Hv1).
    destruct (run_ops ops (self_of (dispatch op env self))) as [self' t].
    cbn [fst snd] in *. destruct IH as [Hv2 Hs2].
    split; [exact Hv2 |].
    rewrite attached_sources_app, Hs1. exact Hs2.
Qed.

Lemma on_load_sources (env : Env) :
  visibility_timeout (fst (on_load env)) = None
  /\ attached_sources [] (snd (on_load env)) = [].
Proof. unfold on_load. method_paths; split; reflexivity. Qed.

Lemma run_keeps_sources (env0 : Env) (ops : list (Env * Op)) :
  glib_ids_positive ops ->
  attached_sources [] (snd (run env0 ops)) = known_sources (fst (run env0 ops))
  /\ (List.length (attached_sources [] (snd (run env0 ops))) <= 1)%nat
  /\ (timeout_pending (fst (run env0 ops)) = true
      <-> visibility_timeout (fst (run env0 ops)) <> None).
Proof.
  intros Hpos. unfold run.
  destruct (on_load_sources env0) as [Ht0 Hs0].
  destruct (on_load env0) as [self0 t0]. cbn [fst snd] in *.
  assert (Hv : timeout_id_valid self0)
    by (intros id H; rewrite Ht0 in H; discriminate).
  destruct (run_ops_keeps_sources ops self0 Hpos Hv) as [Hv' Hs].
  destruct (run_ops ops self0) as [self' t]. cbn [fst snd] in *.
  rewrite attached_sources_app, Hs0.
  replace (known_sources self0) with (@nil Z) in Hs
    by (unfold known_sources; rewrite Ht0; reflexivity).
  rewrite Hs. split; [reflexivity | split].
  - unfold known_sources. destruct (visibility_timeout self'); cbn; lia.
  - unfold timeout_pending, timeout_id_valid in *.
    destruct (visibility_timeout self') as [id |].
    + rewrite (truthy_positive id (Hv' id eq_refl)).
      split; [discriminate | reflexivity].
    + split; [discriminate | congruence].
Qed.

(** C10. Hiding is delayed, never doubled.
    (a) When nothing forces the icon, no timeout is pending and
    [delay_hiding] is true, [query_visibility] leaves [visible] as it is and
    schedules exactly one timeout, of 2500 ms, whose id it stores.
    (b) While a timeout is pending, [query_visibility] neither hides the icon
    nor schedules a timeout, and keeps the one stored.
    (c) When the timeout fires, [on_visibility_timeout] removes the source,
    clears [visibility_timeout], queries visibility once, without delay, and
    returns [False].
    (d) In every run in which GLib hands out positive ids, the sources left
    attached are the one stored in [visibility_timeout], if any: never two;
    and a timeout is pending exactly when [visibility_timeout] is not
    [None]. *)
Theorem hiding_delayed_never_doubled :
  (forall (emit : bool) (env : Env) (self : StatusIcon),
      ~ visibility_forced env ->
      timeout_pending self = false ->
      let r := query_visibility true emit env self in
      visible (self_of r) = visible self
      /\ trace_of r
         = [TimeoutAdd 2500 cb_on_visibility_timeout (timeout_add_id env)]
      /\ timeouts_added (trace_of r) = [(2500%Z, timeout_add_id env)]
      /\ visibility_timeout (self_of r) = Some (timeout_add_id env))
  /\ (forall (delay_hiding emit : bool) (env : Env) (self : StatusIcon),
         timeout_pending self = true ->
         let r := query_visibility delay_hiding emit env self in
         timeouts_added (trace_of r) = []
         /\ visibility_timeout (self_of r) = visibility_timeout self
         /\ (visible (self_of r) = visible self
             \/ visible (self_of r) = Some true)
         /\ (forall e, ~ In (Enter (call_set_visible false e)) (trace_of r)))
  /\ (forall (env : Env) (self : StatusIcon) (id : Z),
         visibility_timeout self = Some id ->
         let r := on_visibility_timeout env self in
         let q := query_visibility false true env
                    (with_visibility_timeout None self) in
         result_of r = Returned false
         /\ self_of r = self_of q
         /\ trace_of r = SourceRemove id :: trace_of q
         /\ visibility_timeout (self_of r) = None
         /\ timeouts_added (trace_of r) = [])
  /\ (forall (env0 : Env) (ops : list (Env * Op)),
         glib_ids_positive ops ->
         let self := fst (run env0 ops) in
         let t := snd (run env0 ops) in
         attached_sources [] t = known_sources self
         /\ (List.length (attached_sources [] t) <= 1)%nat
         /\ (timeout_pending self = true <-> visibility_timeout self <> None)).
Proof.
  split; [| split; [| split]].
  - intros emit env self Hn Hp r. subst r.
    apply show_condition_not_forced in Hn.
    rewrite (query_visibility_delay emit env self Hn Hp).
    repeat split.
  - intros d emit env self Hp r. subst r.
    destruct (show_condition env) eqn:Hs.
    + rewrite (query_visibility_show d emit env self Hs), set_visible_eq.
      unfold self_of, trace_of. cbn [fst snd].
      repeat split.
      * destruct emit; reflexivity.
      * right. reflexivity.
      * intros e [H | H]; [discriminate |].
        destruct emit; cbn in H; [destruct H as [H | []]; discriminate
                                  | destruct H].
    + rewrite (query_visibility_pending d emit env self Hs Hp).
      repeat split.
      * left. reflexivity.
      * intros e [].
  - intros env self id Hid r q. subst r q.
    unfold on_visibility_timeout, bind, get, tell, modify, ret.
    rewrite Hid.
    pose proof (query_visibility_keeps_timeout true env
                  (with_visibility_timeout None self)) as Hk.
    unfold self_of, trace_of, result_of in *.
    destruct (query_visibility false true env
                (with_visibility_timeout None self)) as [[[] s] t] eqn:Eq.
    cbn [fst snd] in *. rewrite app_nil_r. repeat split.
    + exact Hk.
    + assert (Ht : t = trace_of (query_visibility false true env
                                   (with_visibility_timeout None self)))
        by (rewrite Eq; reflexivity).
      rewrite Ht. clear. method_paths; reflexivity.
  - intros env0 ops Hpos. exact (run_keeps_sources env0 ops Hpos).
Qed.

Lemma hiding_delayed_never_doubled_witness :
  let env := sample_env [] [] false in
  let waiting := with_visibility_timeout (Some 7%Z) sample_self in
  visible (self_of (query_visibility true true env sample_self))
  = visible sample_self
  /\ timeouts_added (trace_of (query_visibility true true env waiting)) = []
  /\ result_of (on_visibility_timeout env waiting) = Returned false
  /\ (List.length (attached_sources []
                (snd (run env [(env, OpQueryVisibility true true);
                               (env, OpQueryVisibility true true)]))) <= 1)%nat.
Proof.
  intros env waiting.
  destruct hiding_delayed_never_doubled as [Ha [Hb [Hc Hd]]].
  split; [| split; [| split]].
  - apply (Ha true env sample_self).
    + apply show_condition_not_forced. reflexivity.
    + reflexivity.
  - apply (Hb true true env waiting). reflexivity.
  - apply (Hc env waiting 7%Z). reflexivity.
  - apply (Hd env [(env, OpQueryVisibility true true);
                   (env, OpQueryVisibility true true)]).
    intros e o [H | [H | []]]; inversion H; subst; reflexivity.
Defined.


(** * Further properties of the plugin *)

(** ** The cache of implementations and the tray process *)

Lemma list_string_eqb_eq (a b : list string) :
  list_string_eqb a b = true -> a = b.
Proof.
  unfold list_string_eqb. destruct (list_eq_dec string_dec a b); congruence.
Qed.

(** X1. Whatever [_implementations] held, after [_on_plugins_changed] it
    holds the list [_get_status_icon_implementations] returns now; the call
    touches no other slot and emits no bus signal. *)
Theorem plugins_changed_caches_implementations :
  forall (name : string) (env : Env) (self : StatusIcon),
    let self' := self_of (_on_plugins_changed name env self) in
    _implementations self' = Some (_get_status_icon_implementations env)
    /\ visible self' = visible self
    /\ visibility_timeout self' = visibility_timeout self
    /\ _tooltip_title self' = _tooltip_title self
    /\ _tooltip_text self' = _tooltip_text self
    /\ signals (trace_of (_on_plugins_changed name env self)) = [].
Proof.
  intros name env self.
  unfold _on_plugins_changed, bind, ask, get, modify, ret, launch, tell,
    self_of, trace_of.
  cbn.
  destruct (_implementations self) as [l |] eqn:El; cbn.
  - destruct (Py.truthy_list l) eqn:Et; cbn.
    + destruct (list_string_eqb l (_get_status_icon_implementations env)) eqn:Eq;
        cbn.
      * apply list_string_eqb_eq in Eq. subst l.
        destruct (manager_state env); cbn; repeat split; assumption.
      * destruct (manager_state env); cbn; repeat split.
    + destruct (manager_state env); cbn; repeat split.
  - destruct (manager_state env); cbn; repeat split.
Qed.

(** X2. The tray process is launched by a manager-state change to [True] and
    by a plugin change while the manager is up, once each time and always as
    [launch('blueman-tray', icon_name='blueman', sn=False)]; no other call
    launches anything. *)
Theorem tray_launched_only_when_manager_up :
  forall (op : Op) (env : Env) (self : StatusIcon),
    launches (trace_of (dispatch op env self))
    = if launches_tray op env
      then [Launch "blueman-tray" "blueman" false]
      else [].
Proof.
  intros op env self.
  destruct op; unfold launches_tray; method_paths; reflexivity.
Qed.

(** ** Loading *)

(** X3. [on_load] decides visibility without telling the bus: it emits no
    signal, schedules no timeout and launches nothing, and leaves [visible]
    [True] exactly when an adapter is present or a handler forces the icon,
    [False] otherwise. *)
Theorem on_load_decides_silently :
  forall env : Env,
    let self := fst (on_load env) in
    let t := snd (on_load env) in
    signals t = []
    /\ timeouts_added t = []
    /\ launches t = []
    /\ (visible self = Some true <-> visibility_forced env)
    /\ (visible self = Some false <-> ~ visibility_forced env)
    /\ visibility_timeout self = None
    /\ _implementations self = None.
Proof.
  intros env. unfold on_load. cbn [fst snd].
  set (self0 := class_attributes (gettext env "Bluetooth Enabled")).
  destruct (show_condition env) eqn:Hs.
  - rewrite (query_visibility_show false false env self0 Hs), set_visible_eq.
    apply show_condition_forced in Hs. cbn.
    repeat split; intros; try assumption; try discriminate; contradiction.
  - rewrite (query_visibility_hide false env self0 Hs eq_refl), set_visible_eq.
    apply show_condition_not_forced in Hs. cbn.
    repeat split; intros; try assumption; try discriminate; contradiction.
Qed.

(** ** Signals and state *)

(** X4. No call emits [VisibilityChanged] twice, and the value a
    [VisibilityChanged] carries is the one [visible] holds when the call
    returns. *)
Theorem visibility_signal_carries_final_state :
  forall (op : Op) (env : Env) (self : StatusIcon),
    let r := dispatch op env self in
    visibility_signals (trace_of r) = []
    \/ exists v, visibility_signals (trace_of r) = [v]
                 /\ visible (self_of r) = Some v.
Proof.
  intros op env self.
  destruct op; method_paths;
    solve [left; reflexivity | right; eexists; split; reflexivity].
Qed.

(** ** The timeout callback *)

(** X5. The assertion of [on_visibility_timeout] fails exactly when no
    timeout is stored, and then the call changes nothing and does nothing;
    in a run in which GLib hands out positive ids, the callback of a source
    that is still attached never fails it. *)
Theorem timeout_assertion_holds_for_attached_source :
  (forall (env : Env) (self : StatusIcon),
      (result_of (on_visibility_timeout env self) = AssertionError
       <-> visibility_timeout self = None)
      /\ (visibility_timeout self = None ->
          self_of (on_visibility_timeout env self) = self
          /\ trace_of (on_visibility_timeout env self) = []))
  /\ (forall (env0 : Env) (ops : list (Env * Op)) (env : Env),
         glib_ids_positive ops ->
         attached_sources [] (snd (run env0 ops)) <> [] ->
         result_of (on_visibility_timeout env (fst (run env0 ops)))
         = Returned false).
Proof.
  split.
  - intros env self. split.
    + method_paths; split; intros; congruence.
    + intros H. method_unfold. rewrite H. split; reflexivity.
  - intros env0 ops env Hpos Hne.
    destruct (run_keeps_sources env0 ops Hpos) as [Hs _].
    rewrite Hs in Hne. unfold known_sources in Hne.
    remember (fst (run env0 ops)) as reached eqn:Hr. clear Hr Hs.
    destruct (visibility_timeout reached) as [id |] eqn:Ht; [| congruence].
    method_unfold. rewrite Ht. method_split; reflexivity.
Qed.

Lemma timeout_assertion_holds_for_attached_source_witness :
  let env := sample_env [] [] false in
  result_of (on_visibility_timeout env
               (fst (run env [(env, OpQueryVisibility true true)])))
  = Returned false
  /\ self_of (on_visibility_timeout env sample_self) = sample_self.
Proof.
  intros env.
  destruct timeout_assertion_holds_for_attached_source as [Ha Hb].
  split.
  - apply (Hb env [(env, OpQueryVisibility true true)] env).
    + intros e o [H | []]. inversion H; subst. reflexivity.
    + cbn. discriminate.
  - apply (Ha env sample_self). reflexivity.
Defined.

(** X6. When the timeout fires the icon is decided for good: the stored
    timeout is cleared, [visible] is [True] exactly when an adapter is
    present or a handler forces the icon, and the bus is told the outcome
    with one [VisibilityChanged]: a hide that was delayed is carried out, or
    cancelled if the icon is wanted again. *)
Theorem timeout_carries_out_or_cancels_hide :
  forall (env : Env) (self : StatusIcon) (id : Z),
    visibility_timeout self = Some id ->
    let r := on_visibility_timeout env self in
    visibility_timeout (self_of r) = None
    /\ (visibility_forced env ->
        visible (self_of r) = Some true
        /\ signals (trace_of r) = [VisibilityChanged true])
    /\ (~ visibility_forced env ->
        visible (self_of r) = Some false
        /\ signals (trace_of r) = [VisibilityChanged false]).
Proof.
  intros env self id Hid r. subst r.
  split; [| split].
  - method_unfold. rewrite Hid. method_split; reflexivity.
  - intros Hf. apply show_condition_forced in Hf.
    method_unfold. rewrite Hid, Hf. cbn. split; reflexivity.
  - intros Hn. apply show_condition_not_forced in Hn.
    method_unfold. rewrite Hid, Hn. cbn.
    change (Py.truthy_opt_int None) with false. cbn. split; reflexivity.
Qed.

Lemma timeout_carries_out_or_cancels_hide_witness :
  let waiting := with_visibility_timeout (Some 7%Z) sample_self in
  visible (self_of (on_visibility_timeout (sample_env [] [] false) waiting))
  = Some false
  /\ visible (self_of (on_visibility_timeout
                         (sample_env ["/org/bluez/hci0"] [] false) waiting))
     = Some true.
Proof.
  intros waiting. split.
  - apply (timeout_carries_out_or_cancels_hide
             (sample_env [] [] false) waiting 7%Z eq_refl).
    apply show_condition_not_forced. reflexivity.
  - apply (timeout_carries_out_or_cancels_hide
             (sample_env ["/org/bluez/hci0"] [] false) waiting 7%Z eq_refl).
    left. cbn. discriminate.
Defined.

(** ** Repeated queries *)

(** X7. Querying visibility twice in the same environment leaves the object
    as querying once does; and when the id GLib returned is positive, the
    second query schedules no timeout. *)
Theorem query_visibility_idempotent :
  forall (delay_hiding emit : bool) (env : Env) (self : StatusIcon),
    let once := query_visibility delay_hiding emit env self in
    let twice := query_visibility delay_hiding emit env (self_of once) in
    self_of twice = self_of once
    /\ ((0 < timeout_add_id env)%Z -> timeouts_added (trace_of twice) = []).
Proof.
  intros d e env self. cbv zeta.
  destruct (show_condition env) eqn:Hs.
  - rewrite (query_visibility_show d e env self Hs), set_visible_eq.
    unfold self_of, trace_of. cbn [fst snd].
    rewrite (query_visibility_show d e env _ Hs), set_visible_eq.
    split; [reflexivity | intros _; destruct e; reflexivity].
  - destruct (timeout_pending self) eqn:Hp.
    + rewrite (query_visibility_pending d e env self Hs Hp).
      unfold self_of, trace_of. cbn [fst snd].
      rewrite (query_visibility_pending d e env self Hs Hp).
      split; [reflexivity | intros _; reflexivity].
    + destruct d.
      * rewrite (query_visibility_delay e env self Hs Hp).
        unfold self_of, trace_of. cbn [fst snd].
        set (self1 := with_visibility_timeout (Some (timeout_add_id env)) self).
        destruct (timeout_pending self1) eqn:Hp1.
        -- rewrite (query_visibility_pending true e env self1 Hs Hp1).
           split; [reflexivity | intros _; reflexivity].
        -- rewrite (query_visibility_delay e env self1 Hs Hp1).
           split; [reflexivity |].
           intros Hid. unfold timeout_pending, self1 in Hp1. cbn in Hp1.
           rewrite (truthy_positive _ Hid) in Hp1. discriminate.
      * rewrite (query_visibility_hide e env self Hs Hp), set_visible_eq.
        unfold self_of, trace_of. cbn [fst snd].
        rewrite (query_visibility_hide e env (with_visible (Some false) self)
                   Hs Hp), set_visible_eq.
        split; [reflexivity | intros _; destruct e; reflexivity].
Qed.

Lemma query_visibility_idempotent_witness :
  let env := sample_env [] [] false in
  timeouts_added
    (trace_of (query_visibility true true env
                 (self_of (query_visibility true true env sample_self))))
  = [].
Proof.
  intros env.
  apply (query_visibility_idempotent true true env sample_self).
  reflexivity.
Defined.

(** ** Which call writes which slot *)

Lemma dispatch_frame (op : Op) (env : Env) (self : StatusIcon) :
  let self' := self_of (dispatch op env self) in
  (concerns_visibility op = false -> visible self' = visible self)
  /\ (concerns_timeout op = false ->
      visibility_timeout self' = visibility_timeout self)
  /\ _tooltip_title self'
     = match op with
       | OpSetTooltipTitle t => t
       | _ => _tooltip_title self
       end
  /\ _tooltip_text self'
     = match op with
       | OpSetTooltipText t => Some (stored_text t)
       | _ => _tooltip_text self
       end.
Proof.
  destruct op as [d e | | v e | t | t | k | | p | p | st | n];
    try destruct d; cbn [concerns_visibility concerns_timeout];
    method_paths; repeat split; intros; try reflexivity; discriminate.
Qed.

(** X8. The slots are written by their own calls only: the tooltip setters
    and a plugin change never touch [visible]; only a delayed
    [query_visibility] and the timeout callback write [visibility_timeout];
    the tooltip title and text change under [set_tooltip_title] and
    [set_tooltip_text] and under no other call. *)
Theorem slots_written_by_their_calls :
  forall (op : Op) (env : Env) (self : StatusIcon),
    let self' := self_of (dispatch op env self) in
    (concerns_visibility op = false -> visible self' = visible self)
    /\ (concerns_timeout op = false ->
        visibility_timeout self' = visibility_timeout self)
    /\ ((forall t, op <> OpSetTooltipTitle t) ->
        _tooltip_title self' = _tooltip_title self)
    /\ ((forall t, op <> OpSetTooltipText t) ->
        _tooltip_text self' = _tooltip_text self).
Proof.
  intros op env self self'.
  destruct (dispatch_frame op env self) as [Hv [Ht [Hti Htx]]].
  split; [exact Hv | split; [exact Ht | split]].
  - intros Hop. subst self'. rewrite Hti.
    destruct op; try reflexivity. exfalso. exact (Hop title eq_refl).
  - intros Hop. subst self'. rewrite Htx.
    destruct op; try reflexivity. exfalso. exact (Hop text eq_refl).
Qed.

Lemma slots_written_by_their_calls_witness :
  let env := sample_env [] [] false in
  visible (self_of (dispatch (OpSetTooltipTitle "Connected") env sample_self))
  = visible sample_self
  /\ visibility_timeout
       (self_of (dispatch (OpAdapterRemoved "/org/bluez/hci0") env sample_self))
     = visibility_timeout sample_self
  /\ _tooltip_title
       (self_of (dispatch (OpQueryVisibility true true) env sample_self))
     = _tooltip_title sample_self
  /\ _tooltip_text
       (self_of (dispatch (OpSetTooltipTitle "Connected") env sample_self))
     = _tooltip_text sample_self.
Proof.
  intros env. split; [| split; [| split]].
  - apply (slots_written_by_their_calls (OpSetTooltipTitle "Connected") env
             sample_self). reflexivity.
  - apply (slots_written_by_their_calls (OpAdapterRemoved "/org/bluez/hci0")
             env sample_self). reflexivity.
  - apply (slots_written_by_their_calls (OpQueryVisibility true true) env
             sample_self). intros t. discriminate.
  - apply (slots_written_by_their_calls (OpSetTooltipTitle "Connected") env
             sample_self). intros t. discriminate.
Defined.

(** ** While the hide is delayed *)

Lemma dispatch_while_pending (op : Op) (env : Env) (self : StatusIcon) :
  timeout_pending self = true ->
  hides_while_pending op = false ->
  let r := dispatch op env self in
  visibility_timeout (self_of r) = visibility_timeout self
  /\ timeouts_added (trace_of r) = []
  /\ (forall e, ~ In (Enter (call_set_visible false e)) (trace_of r))
  /\ (visible (self_of r) = visible self \/ visible (self_of r) = Some true).
Proof.
  unfold timeout_pending. intros Hp Hop.
  destruct op as [d e | | v e | t | t | k | | p | p | st | n];
    try discriminate; try (destruct v; try discriminate);
    method_paths;
    try (exfalso; rewrite Hp in *; discriminate);
    (split; [reflexivity | split; [reflexivity | split]]);
    try (left; reflexivity); try (right; reflexivity);
    intros e' Hin; cbn in Hin;
    repeat (destruct Hin as [Hin | Hin]; [discriminate |]); exact Hin.
Qed.

Lemma timeouts_added_app (t1 t2 : list Event) :
  timeouts_added (t1 ++ t2) = timeouts_added t1 ++ timeouts_added t2.
Proof. unfold timeouts_added. apply flat_map_app. Qed.

(** X9. While a hide timeout is pending, no sequence of queries, adapter,
    manager, configuration and plugin events and tooltip updates hides the
    icon, replaces the timeout or schedules another one: only the timeout
    itself, or a direct [set_visible(False, _)], does. *)
Theorem pending_timeout_survives_events :
  forall (ops : list (Env * Op)) (self : StatusIcon),
    timeout_pending self = true ->
    (forall env op, In (env, op) ops -> hides_while_pending op = false) ->
    let self' := fst (run_ops ops self) in
    let t := snd (run_ops ops self) in
    visibility_timeout self' = visibility_timeout self
    /\ timeouts_added t = []
    /\ (forall e, ~ In (Enter (call_set_visible false e)) t)
    /\ (visible self' = visible self \/ visible self' = Some true).
Proof.
  induction ops as [| [env op] ops IH]; intros self Hp Hops.
  - cbn. repeat split; auto.
  - cbn [run_ops].
    assert (Hop : hides_while_pending op = false)
      by (apply (Hops env op); left; reflexivity).
    destruct (dispatch_while_pending op env self Hp Hop)
      as [Ht1 [Ha1 [He1 Hv1]]].
    assert (Hp1 : timeout_pending (self_of (dispatch op env self)) = true)
      by (unfold timeout_pending in *; rewrite Ht1; exact Hp).
    assert (Hops1 : forall env op,
               In (env, op) ops -> hides_while_pending op = false)
      by (intros e o Hin; apply (Hops e o); right; exact Hin).
    specialize (IH (self_of (dispatch op env self)) Hp1 Hops1).
    destruct (run_ops ops (self_of (dispatch op env self))) as [self' t].
    cbn [fst snd] in *. destruct IH as [Ht2 [Ha2 [He2 Hv2]]].
    split; [congruence | split; [| split]].
    + rewrite timeouts_added_app, Ha1, Ha2. reflexivity.
    + intros e Hin. apply in_app_or in Hin. destruct Hin as [Hin | Hin].
      * exact (He1 e Hin).
      * exact (He2 e Hin).
    + destruct Hv2 as [Hv2 | Hv2]; [| right; exact Hv2].
      destruct Hv1 as [Hv1 | Hv1]; [left | right]; congruence.
Qed.

Lemma pending_timeout_survives_events_witness :
  let env := sample_env [] [] false in
  let waiting := with_visibility_timeout (Some 7%Z) (with_visible (Some true)
                                                       sample_self) in
  let ops := [(env, OpAdapterRemoved "/org/bluez/hci0");
              (env, OpQueryVisibility true true);
              (env, OpManagerStateChanged false)] in
  visibility_timeout (fst (run_ops ops waiting)) = Some 7%Z
  /\ timeouts_added (snd (run_ops ops waiting)) = [].
Proof.
  intros env waiting ops.
  assert (Hp : timeout_pending waiting = true) by reflexivity.
  assert (Hops : forall e o, In (e, o) ops -> hides_while_pending o = false).
  { intros e o [H | [H | [H | []]]]; inversion H; reflexivity. }
  destruct (pending_timeout_survives_events ops waiting Hp Hops)
    as [Ht [Ha _]].
  split; [exact Ht | exact Ha].
Defined.

(** ** What a bus client sees *)

Lemma last_visibility_signal_app (t1 t2 : list Event) (init : option bool) :
  last_visibility_signal init (t1 ++ t2)
  = last_visibility_signal (last_visibility_signal init t1) t2.
Proof.
  revert init. induction t1 as [| e t1 IH]; intros init; [reflexivity |].
  destruct e as [c | [v | s | s | s] | | |]; cbn; apply IH.
Qed.

Lemma last_title_signal_app (t1 t2 : list Event) (init : string) :
  last_title_signal init (t1 ++ t2)
  = last_title_signal (last_title_signal init t1) t2.
Proof.
  revert init. induction t1 as [| e t1 IH]; intros init; [reflexivity |].
  destruct e as [c | [v | s | s | s] | | |]; cbn; apply IH.
Qed.

Lemma last_text_signal_app (t1 t2 : list Event) (init : option string) :
  last_text_signal init (t1 ++ t2)
  = last_text_signal (last_text_signal init t1) t2.
Proof.
  revert init. induction t1 as [| e t1 IH]; intros init; [reflexivity |].
  destruct e as [c | [v | s | s | s] | | |]; cbn; apply IH.
Qed.

Lemma dispatch_visibility_signal (op : Op) (env : Env) (self : StatusIcon) :
  is_silent op = false ->
  last_visibility_signal (visible self) (trace_of (dispatch op env self))
  = visible (self_of (dispatch op env self)).
Proof.
  destruct op as [d [|] | | v [|] | t | t | k | | p | p | st | n];
    cbn [is_silent]; try discriminate; intros _;
    method_paths; reflexivity.
Qed.

Lemma dispatch_tooltip_signals (op : Op) (env : Env) (self : StatusIcon) :
  last_title_signal (_tooltip_title self) (trace_of (dispatch op env self))
  = _tooltip_title (self_of (dispatch op env self))
  /\ last_text_signal (_tooltip_text self) (trace_of (dispatch op env self))
     = _tooltip_text (self_of (dispatch op env self)).
Proof. destruct op; method_paths; split; reflexivity. Qed.

Lemma on_load_trace_silent (env : Env) :
  signals (snd (on_load env)) = []
  /\ (forall init, last_visibility_signal init (snd (on_load env)) = init)
  /\ (forall init, last_title_signal init (snd (on_load env)) = init)
  /\ (forall init, last_text_signal init (snd (on_load env)) = init).
Proof. unfold on_load. method_paths; repeat split. Qed.

(** X10. A bus client that reads GetVisibility once after the plugin is
    loaded and then follows [VisibilityChanged] holds the value GetVisibility
    returns, after any sequence of calls none of which is made with
    [emit=False]. *)
Theorem visibility_signals_track_state :
  forall (env0 : Env) (ops : list (Env * Op)),
    (forall env op, In (env, op) ops -> is_silent op = false) ->
    GetVisibility (fst (run env0 ops))
    = last_visibility_signal (GetVisibility (fst (on_load env0)))
        (snd (run env0 ops)).
Proof.
  intros env0 ops Hops. unfold run, GetVisibility.
  destruct (on_load_trace_silent env0) as [_ [H0 _]].
  destruct (on_load env0) as [self0 t0]. cbn [fst snd] in *.
  assert (H : forall self,
             visible (fst (run_ops ops self))
             = last_visibility_signal (visible self) (snd (run_ops ops self))).
  { clear H0. induction ops as [| [env op] ops IH]; intros self.
    - reflexivity.
    - cbn [run_ops].
      assert (Hop : is_silent op = false)
        by (apply (Hops env op); left; reflexivity).
      assert (Hops' : forall env op, In (env, op) ops -> is_silent op = false)
        by (intros e o Hin; apply (Hops e o); right; exact Hin).
      specialize (IH Hops' (self_of (dispatch op env self))).
      destruct (run_ops ops (self_of (dispatch op env self))) as [self' t].
      cbn [fst snd] in *.
      rewrite last_visibility_signal_app,
        (dispatch_visibility_signal op env self Hop).
      exact IH. }
  specialize (H self0).
  destruct (run_ops ops self0) as [self' t]. cbn [fst snd] in *.
  rewrite last_visibility_signal_app, H0. exact H.
Qed.

Lemma visibility_signals_track_state_witness :
  let up := sample_env ["/org/bluez/hci0"] [] false in
  let down := sample_env [] [] false in
  let ops := [(down, OpAdapterRemoved "/org/bluez/hci0");
              (up, OpAdapterAdded "/org/bluez/hci0")] in
  GetVisibility (fst (run up ops))
  = last_visibility_signal (GetVisibility (fst (on_load up)))
      (snd (run up ops)).
Proof.
  intros up down ops.
  apply (visibility_signals_track_state up ops).
  intros e o [H | [H | []]]; inversion H; reflexivity.
Defined.

(** X11. The tooltip is never changed behind the bus: after any sequence of
    calls, GetToolTipTitle and GetToolTipText return what the last
    [ToolTipTitleChanged] and [ToolTipTextChanged] carried, and the values
    [on_load] stored when there was none. *)
Theorem tooltip_signals_track_state :
  forall (env0 : Env) (ops : list (Env * Op)),
    let self := fst (run env0 ops) in
    let t := snd (run env0 ops) in
    GetToolTipTitle self
    = last_title_signal (gettext env0 "Bluetooth Enabled") t
    /\ GetToolTipText self = last_text_signal (Some "") t.
Proof.
  intros env0 ops. cbv zeta. unfold run, GetToolTipTitle, GetToolTipText.
  destruct (on_load_trace_silent env0) as [_ [_ [H1 H2]]].
  pose proof (on_load_slots env0) as [_ [_ [Hti [_ [Htx _]]]]].
  destruct (on_load env0) as [self0 t0]. cbn [fst snd] in *.
  assert (H : forall self,
             _tooltip_title (fst (run_ops ops self))
             = last_title_signal (_tooltip_title self) (snd (run_ops ops self))
             /\ _tooltip_text (fst (run_ops ops self))
                = last_text_signal (_tooltip_text self)
                    (snd (run_ops ops self))).
  { clear. induction ops as [| [env op] ops IH]; intros self.
    - split; reflexivity.
    - cbn [run_ops].
      destruct (dispatch_tooltip_signals op env self) as [Ha Hb].
      specialize (IH (self_of (dispatch op env self))).
      destruct (run_ops ops (self_of (dispatch op env self))) as [self' t].
      cbn [fst snd] in *.
      rewrite last_title_signal_app, last_text_signal_app, Ha, Hb.
      exact IH. }
  specialize (H self0).
  destruct (run_ops ops self0) as [self' t]. cbn [fst snd] in *.
  rewrite last_title_signal_app, last_text_signal_app, H1, H2, <- Hti, <- Htx.
  exact H.
Qed.

(** ** The order of the implementations *)

Section StableSortFacts.
Context {A : Type} (key : A -> Z).

Lemma filter_key_perm (k : Z) (l1 l2 : list A) :
  Permutation l1 l2 ->
  NoDup (map key l1) ->
  filter (fun a => (key a =? k)%Z) l1 = filter (fun a => (key a =? k)%Z) l2.
Proof.
  induction 1 as [| x l l' Hp IH | x y l | l l' l'' Hp1 IH1 Hp2 IH2];
    intros Hnd.
  - reflexivity.
  - cbn. inversion Hnd as [| ? ? _ Hnd']; subst.
    rewrite (IH Hnd'). reflexivity.
  - cbn. inversion Hnd as [| ? ? Hy _]; subst.
    destruct (key y =? k)%Z eqn:Ey; destruct (key x =? k)%Z eqn:Ex;
      try reflexivity.
    apply Z.eqb_eq in Ex, Ey. exfalso. apply Hy. left. congruence.
  - rewrite (IH1 Hnd). apply IH2.
    apply (Permutation_NoDup (Permutation_map key Hp1) Hnd).
Qed.

Lemma sorted_reverse_order_independent (l1 l2 : list A) :
  Permutation l1 l2 ->
  NoDup (map key l1) ->
  Py.sorted_reverse key l1 = Py.sorted_reverse key l2.
Proof.
  intros Hp Hnd. apply (stable_sort_unique key).
  - eapply perm_trans; [apply Permutation_sym, sorted_reverse_perm |].
    eapply perm_trans; [exact Hp | apply sorted_reverse_perm].
  - apply sorted_reverse_sorted.
  - apply sorted_reverse_sorted.
  - intros k. rewrite !sorted_reverse_stable.
    apply filter_key_perm; assumption.
Qed.

Lemma sorted_reverse_head_max (l : list A) (x : A) :
  In x l ->
  exists top rest,
    Py.sorted_reverse key l = top :: rest
    /\ In top l
    /\ (key x <= key top)%Z.
Proof.
  intros Hin.
  pose proof (sorted_reverse_perm key l) as Hp.
  pose proof (sorted_reverse_sorted key l) as Hs.
  destruct (Py.sorted_reverse key l) as [| top rest] eqn:E.
  - apply Permutation_sym, Permutation_nil in Hp. subst l. destruct Hin.
  - exists top, rest. split; [reflexivity | split].
    + apply (Permutation_in top (Permutation_sym Hp)). left. reflexivity.
    + apply (Permutation_in x Hp) in Hin. destruct Hin as [-> | Hin]; [lia |].
      inversion Hs as [| ? ? _ Hall]; subst.
      rewrite Forall_forall in Hall. exact (Hall x Hin).
Qed.
End StableSortFacts.

(** X12. When the declared priorities are pairwise distinct, the list of
    implementations does not depend on the order in which the plugins were
    loaded. *)
Theorem implementations_independent_of_load_order :
  forall env1 env2 : Env,
    let declared env :=
      get_loaded_plugins on_query_status_icon_implementation
        (loaded_plugins env) in
    Permutation (declared env1) (declared env2) ->
    distinct_priorities (declared env1) ->
    _get_status_icon_implementations env1
    = _get_status_icon_implementations env2.
Proof.
  intros env1 env2 declared Hp Hnd.
  unfold _get_status_icon_implementations. fold (declared env1) (declared env2).
  rewrite (sorted_reverse_order_independent snd _ _ Hp Hnd). reflexivity.
Qed.

Lemma implementations_independent_of_load_order_witness :
  _get_status_icon_implementations
    (sample_env [] [implementation_plugin "AppIndicator" 10;
                    implementation_plugin "StatusNotifierItem" 20] false)
  = _get_status_icon_implementations
      (sample_env [] [implementation_plugin "StatusNotifierItem" 20;
                      implementation_plugin "AppIndicator" 10] false).
Proof.
  apply (implementations_independent_of_load_order
           (sample_env [] [implementation_plugin "AppIndicator" 10;
                           implementation_plugin "StatusNotifierItem" 20] false)
           (sample_env [] [implementation_plugin "StatusNotifierItem" 20;
                           implementation_plugin "AppIndicator" 10] false)).
  - apply perm_swap.
  - unfold distinct_priorities. cbn.
    constructor; [| constructor; [| constructor]].
    + intros [H | []]. discriminate.
    + intros [].
Defined.

(** X13. The list of implementations holds every declared name as often as
    it is declared, and the fallback once more: nothing is dropped or merged.
    Its first entry is a declared name of the highest declared priority, when
    any name is declared. *)
Theorem implementations_keep_every_name :
  forall env : Env,
    let declared :=
      get_loaded_plugins on_query_status_icon_implementation
        (loaded_plugins env) in
    let l := _get_status_icon_implementations env in
    Permutation (map fst declared ++ ["GtkStatusIcon"]) l
    /\ List.length l = S (List.length declared)
    /\ (forall name priority,
           In (name, priority) declared ->
           exists top top_priority,
             hd_error l = Some top
             /\ In (top, top_priority) declared
             /\ (priority <= top_priority)%Z).
Proof.
  intros env declared l. subst l. unfold _get_status_icon_implementations.
  fold declared.
  pose proof (sorted_reverse_perm snd declared) as Hp.
  split; [| split].
  - apply Permutation_app_tail, Permutation_map. exact Hp.
  - rewrite length_app, length_map, <- (Permutation_length Hp). cbn. lia.
  - intros name priority Hin.
    destruct (sorted_reverse_head_max snd declared (name, priority) Hin)
      as [[top p] [rest [E [Ht Hle]]]].
    exists top, p. rewrite E. cbn. repeat split; assumption.
Qed.

Lemma implementations_keep_every_name_witness :
  let env := sample_env [] [implementation_plugin "AppIndicator" 10;
                            implementation_plugin "StatusNotifierItem" 20]
               false in
  exists top top_priority,
    hd_error (_get_status_icon_implementations env) = Some top
    /\ In (top, top_priority)
         (get_loaded_plugins on_query_status_icon_implementation
            (loaded_plugins env))
    /\ (10 <= top_priority)%Z.
Proof.
  intros env.
  destruct (implementations_keep_every_name env) as [_ [_ H]].
  apply (H "AppIndicator" 10%Z).
  left. reflexivity.
Defined.

(** ** Symbolic and full-colour icon names *)

Lemma get_icon_name_eq (env : Env) :
  _get_icon_name env
  = (Py.replace
       (selected_icon
          (get_loaded_plugins on_status_icon_query_icon (loaded_plugins env)))
       "-symbolic" ""
     ++ (if symbolic_status_icons env then "-symbolic" else ""))%string.
Proof.
  unfold _get_icon_name, selected_icon. rewrite icon_loop_last.
  destruct (symbolic_status_icons env);
    [reflexivity | rewrite append_nil_r; reflexivity].
Qed.

Lemma occurs_tail (pat : string) (c : ascii) (s : string) :
  occurs pat s -> occurs pat (String c s).
Proof. intros [a [b ->]]. exists (String c a), b. reflexivity. Qed.

(** A name that holds no [old] is left as it is. *)
Lemma replace_from_free (old new : string) (c : ascii) (old' s : string) :
  old = String c old' ->
  ~ occurs old s ->
  Py.replace_from 0 old new s = s.
Proof.
  intros E. induction s as [| x s IH]; intros Hfree; [reflexivity |].
  destruct (String.prefix old (String x s)) eqn:Hp.
  - exfalso. apply Hfree. destruct (prefix_split _ _ Hp) as [rest Hr].
    exists ""%string, rest. exact Hr.
  - rewrite (replace_from_no_match old new x s Hp), IH; [reflexivity |].
    intros H. apply Hfree. apply occurs_tail. exact H.
Qed.

(** No occurrence of "-symbolic" starts inside a name and ends inside a
    "-symbolic" that follows it: the word holds one dash, in front. *)
Lemma symbolic_no_straddle (b r : string) :
  (b ++ "-symbolic")%string = ("-symbolic" ++ r)%string ->
  b = ""%string \/ occurs "-symbolic" b.
Proof.
  intros H.
  destruct b as [| c1 b]; [left; reflexivity | right].
  cbn in H. injection H as -> H.
  do 8 (destruct b as [| c b]; [discriminate |];
        cbn in H; injection H as -> H).
  exists ""%string, b. reflexivity.
Qed.

Lemma replace_from_symbolic_suffix (base : string) :
  ~ occurs "-symbolic" base ->
  Py.replace_from 0 "-symbolic" "" (base ++ "-symbolic") = base.
Proof.
  induction base as [| x base IH]; intros Hfree; [reflexivity |].
  destruct (String.prefix "-symbolic" (String x base ++ "-symbolic")) eqn:Hp.
  - exfalso. destruct (prefix_split _ _ Hp) as [r Hr].
    destruct (symbolic_no_straddle (String x base) r Hr) as [H | H];
      [discriminate | exact (Hfree H)].
  - change (String x base ++ "-symbolic")%string
      with (String x (base ++ "-symbolic")) in *.
    rewrite (replace_from_no_match "-symbolic" "" x _ Hp), IH; [reflexivity |].
    intros H. apply Hfree. apply occurs_tail. exact H.
Qed.

(** X14. A provider may answer with the symbolic or the full-colour variant
    of an icon: for a base name that holds no "-symbolic", both [base] and
    [base-symbolic] give the icon name [base] when symbolic icons are off and
    [base-symbolic] when they are on. *)
Theorem icon_variants_agree :
  forall (env : Env) (base : string),
    ~ occurs "-symbolic" base ->
    (let selected :=
       selected_icon
         (get_loaded_plugins on_status_icon_query_icon (loaded_plugins env)) in
     selected = base \/ selected = (base ++ "-symbolic")%string) ->
    _get_icon_name env
    = if symbolic_status_icons env then (base ++ "-symbolic")%string else base.
Proof.
  intros env base Hfree Hsel. cbv zeta in Hsel.
  rewrite get_icon_name_eq. unfold Py.replace.
  assert (H : Py.replace_from 0 "-symbolic" ""
                (selected_icon
                   (get_loaded_plugins on_status_icon_query_icon
                      (loaded_plugins env)))
              = base).
  { destruct Hsel as [-> | ->].
    - apply (replace_from_free "-symbolic" "" "-" "symbolic" base eq_refl Hfree).
    - apply replace_from_symbolic_suffix. exact Hfree. }
  rewrite H. destruct (symbolic_status_icons env);
    [reflexivity | apply append_nil_r].
Qed.

Lemma occursb_false (pat s : string) :
  occursb pat s = false -> ~ occurs pat s.
Proof.
  induction s as [| c s IH]; cbn [occursb]; intros H [a [b E]].
  - apply orb_false_iff in H. destruct H as [H _].
    destruct a; [| discriminate]. cbn in E. rewrite E in H.
    rewrite prefix_append in H. discriminate.
  - apply orb_false_iff in H. destruct H as [H1 H2].
    destruct a as [| x a].
    + cbn in E. rewrite E in H1. rewrite prefix_append in H1. discriminate.
    + cbn in E. injection E as _ E. apply (IH H2). exists a, b. exact E.
Qed.

Lemma icon_variants_agree_witness :
  _get_icon_name
    (sample_env [] [icon_plugin (Some "blueman-active-symbolic")] false)
  = "blueman-active"%string.
Proof.
  apply (icon_variants_agree
           (sample_env [] [icon_plugin (Some "blueman-active-symbolic")] false)
           "blueman-active").
  - apply occursb_false. reflexivity.
  - right. reflexivity.
Defined.

(** ** Plugins that keep the class defaults *)

Lemma get_loaded_plugins_app {R} (cb : Plugin -> option R)
  (l1 l2 : list Plugin) :
  get_loaded_plugins cb (l1 ++ l2)
  = get_loaded_plugins cb l1 ++ get_loaded_plugins cb l2.
Proof.
  induction l1 as [| p l1 IH]; [reflexivity |].
  cbn. destruct (cb p); cbn; rewrite IH; reflexivity.
Qed.

Lemma icon_loop_app (name : string) (l1 l2 : list (option string)) :
  icon_loop name (l1 ++ l2) = icon_loop (icon_loop name l1) l2.
Proof.
  revert name. induction l1 as [| [i |] l1 IH]; intros name; cbn;
    [reflexivity | apply IH | apply IH].
Qed.

(** X15. A loaded plugin that is no visibility handler or icon provider, or
    that keeps the answers of the protocol classes ([False] and [None]),
    changes neither the visibility decision nor the icon name, wherever it
    stands among the loaded plugins. *)
Theorem neutral_plugin_changes_nothing :
  forall (env : Env) (before after : list Plugin) (p : Plugin),
    is_neutral p ->
    let with_p := with_loaded_plugins (before ++ p :: after) env in
    let without_p := with_loaded_plugins (before ++ after) env in
    show_condition with_p = show_condition without_p
    /\ _get_icon_name with_p = _get_icon_name without_p
    /\ (visibility_forced with_p <-> visibility_forced without_p).
Proof.
  intros env before after p [Hv Hi] with_p without_p.
  assert (Hshow : show_condition with_p = show_condition without_p).
  { unfold show_condition, with_p, without_p. cbn [get_adapters loaded_plugins
      with_loaded_plugins].
    f_equal. rewrite !get_loaded_plugins_app. unfold Py.any.
    rewrite !existsb_app. f_equal. cbn.
    destruct Hv as [-> | ->]; reflexivity. }
  split; [exact Hshow | split].
  - unfold _get_icon_name, with_p, without_p.
    cbn [symbolic_status_icons loaded_plugins with_loaded_plugins].
    rewrite !get_loaded_plugins_app, !icon_loop_app. cbn.
    destruct Hi as [-> | ->]; reflexivity.
  - rewrite <- !show_condition_forced, Hshow. reflexivity.
Qed.

Lemma neutral_plugin_changes_nothing_witness :
  let env := sample_env [] [] true in
  let p := icon_plugin (Some "blueman-active") in
  _get_icon_name (with_loaded_plugins ([p] ++ default_plugin :: []) env)
  = _get_icon_name (with_loaded_plugins ([p] ++ []) env).
Proof.
  intros env p.
  apply (neutral_plugin_changes_nothing env [p] [] default_plugin).
  split; right; reflexivity.
Defined.

(** ** The cache over a run *)

Lemma plugins_changed_cache (name : string) (env : Env) (self : StatusIcon) :
  _implementations (self_of (_on_plugins_changed name env self))
  = Some (_get_status_icon_implementations env).
Proof.
  unfold _on_plugins_changed, bind, ask, get, modify, ret, launch, tell,
    self_of.
  cbn.
  destruct (_implementations self) as [l |] eqn:El; cbn.
  - destruct (Py.truthy_list l) eqn:Et; cbn.
    + destruct (list_string_eqb l (_get_status_icon_implementations env)) eqn:Eq;
        cbn.
      * apply list_string_eqb_eq in Eq. subst l.
        destruct (manager_state env); cbn; assumption.
      * destruct (manager_state env); reflexivity.
    + destruct (manager_state env); reflexivity.
  - destruct (manager_state env); reflexivity.
Qed.

Lemma on_load_decides_nothing_else (env : Env) :
  _implementations (fst (on_load env))
  = option_map _get_status_icon_implementations None.
Proof. unfold on_load. method_paths; reflexivity. Qed.

Lemma dispatch_implementations (op : Op) (env : Env) (self : StatusIcon) :
  _implementations (self_of (dispatch op env self))
  = match op with
    | OpPluginsChanged _ => Some (_get_status_icon_implementations env)
    | _ => _implementations self
    end.
Proof.
  destruct op as [d e | | v e | t | t | k | | p | p | st | n];
    try (method_paths; reflexivity).
  apply (plugins_changed_cache n env self).
Qed.

(** X16. After any sequence of calls, [_implementations] is [None] if the
    plugins never changed, and otherwise the list computed at the last plugin
    change; so the cache is never an empty list, and when filled it ends with
    the fallback. *)
Theorem implementations_cache_over_run :
  forall (env0 : Env) (ops : list (Env * Op)),
    let cache := _implementations (fst (run env0 ops)) in
    cache = option_map _get_status_icon_implementations
              (last_plugins_changed None ops)
    /\ cache <> Some []
    /\ (forall l d, cache = Some l -> last l d = "GtkStatusIcon").
Proof.
  intros env0 ops cache.
  assert (H : cache = option_map _get_status_icon_implementations
                        (last_plugins_changed None ops)).
  { subst cache. unfold run.
    pose proof (on_load_decides_nothing_else env0) as H0.
    destruct (on_load env0) as [self0 t0]. cbn [fst] in H0.
    assert (Hgen : forall seen self,
               _implementations self
               = option_map _get_status_icon_implementations seen ->
               _implementations (fst (run_ops ops self))
               = option_map _get_status_icon_implementations
                   (last_plugins_changed seen ops)).
    { clear. induction ops as [| [env op] ops IH]; intros seen self Hs.
      - exact Hs.
      - cbn [run_ops].
        pose proof (dispatch_implementations op env self) as Hd.
        specialize (IH (match op with
                        | OpPluginsChanged _ => Some env
                        | _ => seen
                        end) (self_of (dispatch op env self))).
        destruct (run_ops ops (self_of (dispatch op env self))) as [self' t].
        cbn [fst] in *.
        destruct op; cbn [last_plugins_changed]; apply IH;
          rewrite Hd; try exact Hs; reflexivity. }
    specialize (Hgen None self0 H0).
    destruct (run_ops ops self0) as [self' t]. exact Hgen. }
  split; [exact H | split].
  - rewrite H. destruct (last_plugins_changed None ops); cbn; [| discriminate].
    intros E. injection E as E. unfold _get_status_icon_implementations in E.
    apply app_eq_nil in E. destruct E as [_ E]. discriminate.
  - intros l d E. rewrite H in E.
    destruct (last_plugins_changed None ops); cbn in E; [| discriminate].
    injection E as <-. apply last_app_singleton.
Qed.

Lemma implementations_cache_over_run_witness :
  let env := sample_env [] [implementation_plugin "AppIndicator" 10] false in
  last ["AppIndicator"; "GtkStatusIcon"] ""%string = "GtkStatusIcon"%string.
Proof.
  intros env.
  destruct (implementations_cache_over_run env
              [(env, OpPluginsChanged "AppIndicator")]) as [_ [_ H]].
  apply H. reflexivity.
Defined.

(** ** Which call emits which signal *)

(** X17. Every signal comes from the call it belongs to: [VisibilityChanged]
    only from calls that decide visibility with [emit=True],
    [ToolTipTitleChanged] and [ToolTipTextChanged] only from their setters
    with the value they stored, [IconNameChanged] only from
    [icon_should_change] with the current icon name; a plugin change emits
    nothing. *)
Theorem signals_come_from_their_calls :
  forall (op : Op) (env : Env) (self : StatusIcon),
    Forall (signal_allowed op env) (signals (trace_of (dispatch op env self))).
Proof.
  intros op env self.
  destruct op as [d [|] | | v [|] | t | t | k | | p | p | st | n];
    method_paths;
    repeat (constructor; cbn; eauto).
Qed.
